(** * blobfs: a read-only io/fs view of a gocloud blob bucket

    Shallow embedding of the [blobFS] resolver (Open, exists) and of the
    [blobFile] handle (getAttrs, Stat, Size, ModTime, IsDir, Read, Seek,
    ReadDir), followed by the properties checked against them.

    The bucket ([*blob.Bucket]) is an external collaborator: it is a
    parameter of the development, a record of response functions over an
    opaque store state.  Every Go call [(value, err)] is kept as the pair it
    is, [err] being [None] for a nil error.  Calls made to the bucket are
    recorded in a call log, so that "without a store round trip" can be
    stated. *)

From Stdlib Require Import String Ascii List ZArith Bool Lia.
Import ListNotations.
Local Open Scope string_scope.
Local Open Scope Z_scope.

(** ** Go library functions used by the code *)

Module GoStrings.

(** [strings.HasSuffix]. *)
Definition HasSuffix (s suffix : string) : bool :=
  let n := String.length s in
  let m := String.length suffix in
  (m <=? n)%nat && String.eqb (substring (n - m) m s) suffix.

(** [strings.TrimPrefix]. *)
Definition TrimPrefix (s pre : string) : string :=
  if String.prefix pre s
  then substring (String.length pre) (String.length s - String.length pre) s
  else s.

(** The loop of [filepath.Ext], for the separator '/':
    [for i := len(path)-1; i >= 0 && path[i] != '/'; i--].  [i] counts
    the characters still to inspect, the next one being [path[i-1]]. *)
Fixpoint Ext_loop (i : nat) (path : string) : string :=
  match i with
  | O => ""
  | S j =>
      match String.get j path with
      | None => ""
      | Some c =>
          if Ascii.eqb c "/" then ""
          else if Ascii.eqb c "."
               then substring j (String.length path - j) path
               else Ext_loop j path
      end
  end.

(** [filepath.Ext]. *)
Definition Ext (path : string) : string :=
  Ext_loop (String.length path) path.

End GoStrings.

(** ** Integers *)

(** Go's [int64]: a [Z] reduced into [-2^63, 2^63). *)
Definition maxInt64 : Z := 2 ^ 63 - 1.

Definition wrap64 (z : Z) : Z := (z + 2 ^ 63) mod 2 ^ 64 - 2 ^ 63.

Definition int64_range (z : Z) : Prop := - 2 ^ 63 <= z <= maxInt64.

(** [io.SeekStart], [io.SeekCurrent], [io.SeekEnd]. *)
Definition SeekStart : Z := 0.
Definition SeekCurrent : Z := 1.
Definition SeekEnd : Z := 2.

(** ** Errors *)

(** The values of Go's [error] interface that the package produces or
    forwards.  [StoreErr] stands for any error coming out of the bucket;
    [PathError] is [*fs.PathError]. *)
Inductive error : Type :=
| ErrNotExist                                   (* fs.ErrNotExist *)
| ErrInvalid                                    (* fs.ErrInvalid *)
| EOF                                           (* io.EOF *)
| ErrorsNew (msg : string)                      (* errors.New(msg) *)
| StoreErr (msg : string)
| PathError (Op Path : string) (Err : error).

(** [err == io.EOF]. *)
Definition is_EOF (e : error) : bool :=
  match e with EOF => true | _ => false end.

(** ** Data of the bucket interface *)

(** [time.Time], kept abstract as a number; [zeroTime] is the zero value. *)
Definition Time : Type := Z.
Definition zeroTime : Time := 0.

(** The fields of [blob.Attributes] the package reads. *)
Record Attributes : Type := mkAttributes {
  Size_ : Z;
  ModTime_ : Time
}.

(** [&blob.Attributes{}]. *)
Definition zeroAttributes : Attributes :=
  {| Size_ := 0; ModTime_ := zeroTime |}.

(** [blob.ListObject]. *)
Record ListObject : Type := mkListObject {
  Key : string;
  ObjIsDir : bool
}.

(** [*blob.ListIterator], by the outcomes its coming [Next] calls produce:
    an object, or an error.  Once the outcomes are used up the listing is
    exhausted and [Next] answers [io.EOF].  The library's iterator fetches
    the listing page by page inside [Next]; those fetches are not part of
    this model, which keeps their outcomes only, so nothing is said here
    about the store calls of a listing. *)
Definition ListIterator : Type := list (ListObject + error).

(** [iter.Next(ctx)]: the result pair and the iterator afterwards. *)
Definition Next (it : ListIterator)
  : (option ListObject * option error) * ListIterator :=
  match it with
  | [] => ((None, Some EOF), [])
  | inl o :: rest => ((Some o, None), rest)
  | inr e :: rest => ((None, Some e), rest)
  end.

(** A Go byte slice that may be nil. *)
Definition Bytes : Type := option (list Byte.byte).

Definition len (s : Bytes) : Z :=
  match s with
  | None => 0
  | Some l => Z.of_nat (length l)
  end.

(** One call to the bucket, as recorded in the call log. *)
Inductive Call : Type :=
| CExists (key : string)
| CAttributes (key : string)
| CReadAll (key : string)
| CListPage (prefix delimiter : string) (pageSize : Z)
| CList (prefix delimiter : string).

(** The bucket over a store state [W].  Each response may depend on the
    state and change it, which covers stores that are modified behind the
    file system's back and faults that come and go. *)
Record Bucket (W : Type) : Type := mkBucket {
  bkExists : string -> W -> (bool * option error) * W;
  bkAttributes : string -> W -> (option Attributes * option error) * W;
  bkReadAll : string -> W -> (Bytes * option error) * W;
  (* ListPage(ctx, blob.FirstPageToken, pageSize, &ListOptions{Prefix, Delimiter});
     the next-page token is dropped by every caller *)
  bkListPage : string -> string -> Z -> W -> (list ListObject * option error) * W;
  (* List(&ListOptions{Prefix, Delimiter}) *)
  bkList : string -> string -> W -> ListIterator
}.

Arguments bkExists {W}.
Arguments bkAttributes {W}.
Arguments bkReadAll {W}.
Arguments bkListPage {W}.
Arguments bkList {W}.

(** The world a method runs in: the store and the calls made so far. *)
Record World (W : Type) : Type := mkWorld {
  store : W;
  calls : list Call
}.

Arguments mkWorld {W}.
Arguments store {W}.
Arguments calls {W}.

(** ** The monad of store-calling code *)

Definition M (W A : Type) : Type := World W -> A * World W.

Definition ret {W A : Type} (a : A) : M W A := fun w => (a, w).

Definition bind {W A B : Type} (m : M W A) (k : A -> M W B) : M W B :=
  fun w => let (a, w') := m w in k a w'.

Declare Scope blob_scope.
Delimit Scope blob_scope with blob.

Notation "x <- m ;; k" := (bind m (fun x => k))
  (at level 61, m at next level, right associativity) : blob_scope.
Notation "' p <- m ;; k" := (bind m (fun x => match x with p => k end))
  (at level 61, p pattern, m at next level, right associativity) : blob_scope.

Local Open Scope blob_scope.

(** ** The file system and its handles *)

(** [blobFS]; its [bucket] field is the bucket parameter. *)
Record blobFS : Type := mkBlobFS {
  version : string;
  prefix : string
}.

(** [blobFile]. *)
Record blobFile : Type := mkBlobFile {
  fs : blobFS;
  name : string;
  attrs : option Attributes;
  isDir : bool;
  contents : Bytes;
  offset : Z;
  iter : option ListIterator
}.

(** [&blobFile{fs: b, name: name}]: every other field has its zero value. *)
Definition newBlobFile (b : blobFS) (nm : string) : blobFile :=
  {| fs := b; name := nm; attrs := None; isDir := false;
     contents := None; offset := 0; iter := None |}.

Definition set_attrs (b : blobFile) (a : option Attributes) : blobFile :=
  {| fs := fs b; name := name b; attrs := a; isDir := isDir b;
     contents := contents b; offset := offset b; iter := iter b |}.

Definition set_isDir (b : blobFile) (d : bool) : blobFile :=
  {| fs := fs b; name := name b; attrs := attrs b; isDir := d;
     contents := contents b; offset := offset b; iter := iter b |}.

Definition set_contents (b : blobFile) (c : Bytes) : blobFile :=
  {| fs := fs b; name := name b; attrs := attrs b; isDir := isDir b;
     contents := c; offset := offset b; iter := iter b |}.

Definition set_offset (b : blobFile) (o : Z) : blobFile :=
  {| fs := fs b; name := name b; attrs := attrs b; isDir := isDir b;
     contents := contents b; offset := o; iter := iter b |}.

Definition set_iter (b : blobFile) (i : option ListIterator) : blobFile :=
  {| fs := fs b; name := name b; attrs := attrs b; isDir := isDir b;
     contents := contents b; offset := offset b; iter := i |}.

(** What [Open] returns: [(file, nil)] or [(nil, err)]. *)
Inductive OpenResult : Type :=
| Opened (f : blobFile)
| OpenFailed (e : error).

Section Code.

Context {W : Type}.
Variable B : Bucket W.

(** *** Calls to the bucket, logged *)

Definition Exists (key : string) : M W (bool * option error) :=
  fun w =>
    let (r, s') := bkExists B key (store w) in
    (r, mkWorld s' (calls w ++ [CExists key])).

Definition GetAttributes (key : string)
  : M W (option Attributes * option error) :=
  fun w =>
    let (r, s') := bkAttributes B key (store w) in
    (r, mkWorld s' (calls w ++ [CAttributes key])).

Definition ReadAll (key : string) : M W (Bytes * option error) :=
  fun w =>
    let (r, s') := bkReadAll B key (store w) in
    (r, mkWorld s' (calls w ++ [CReadAll key])).

Definition ListPage (pre delim : string) (pageSize : Z)
  : M W (list ListObject * option error) :=
  fun w =>
    let (r, s') := bkListPage B pre delim pageSize (store w) in
    (r, mkWorld s' (calls w ++ [CListPage pre delim pageSize])).

(** [bucket.List]: the log entry records the invocation and its options;
    the library's [List] builds the iterator and fetches nothing itself. *)
Definition List_ (pre delim : string) : M W ListIterator :=
  fun w =>
    (bkList B pre delim (store w),
     mkWorld (store w) (calls w ++ [CList pre delim])).

(** *** blobFS *)

(** [blobFS.exists]. *)
Definition exists_ (nm : string) : M W (bool * option error) :=
  '(fileExists, err) <- Exists nm ;;
  if fileExists then ret (true, err)
  else
    '(r, err) <- ListPage nm "/" 1 ;;
    match err with
    | Some e => ret (false, Some e)
    | None => ret (0 <? Z.of_nat (length r), None)
    end.

(** [blobFS.Open]. *)
Definition Open (b : blobFS) (nm : string) : M W OpenResult :=
  if String.eqb nm "." then ret (Opened (newBlobFile b ""))
  else
    '(exists', err) <- exists_ nm ;;
    if negb exists'
    then ret (OpenFailed (PathError "open" nm ErrNotExist))
    else
      match err with
      | Some e => ret (OpenFailed (PathError "open" nm e))
      | None => ret (Opened (newBlobFile b nm))
      end.

(** *** blobFile *)

(** [blobFile.getAttrs]: the handle afterwards and the attributes
    returned.  The [log.Println] lines write to the process log only and
    are left out. *)
Definition getAttrs (b : blobFile) : M W (blobFile * Attributes) :=
  match attrs b with
  | Some a => ret (b, a)
  | None =>
      '(exists', _) <- Exists (name b) ;;
      b1 <- (if exists'
             then '(a, _) <- GetAttributes (name b) ;; ret (set_attrs b a)
             else ret b) ;;
      match attrs b1 with
      | None => ret (b1, zeroAttributes)
      | Some a => ret (b1, a)
      end
  end.

(** What [Stat] returns: [(b, err)], the file info being the handle
    itself, or [(nil, err)]. *)
Inductive StatResult : Type :=
| StatInfo (err : option error)
| StatFailed (e : error).

(** [blobFile.Stat]. *)
Definition Stat (b : blobFile) : M W (blobFile * StatResult) :=
  '(a, err) <- GetAttributes (name b) ;;
  let b1 := set_attrs b a in
  match err with
  | Some _ =>
      '(r, err') <- ListPage (name b) "/" 1 ;;
      if Nat.eqb (length r) 0
      then ret (b1, StatFailed (PathError "stat" (name b) ErrNotExist))
      else ret (set_isDir b1 true, StatInfo err')
  | None => ret (b1, StatInfo None)
  end.

(** [blobFile.Size]. *)
Definition Size (b : blobFile) : M W (blobFile * Z) :=
  '(b1, a) <- getAttrs b ;; ret (b1, Size_ a).

(** [blobFile.ModTime]. *)
Definition ModTime (b : blobFile) : M W (blobFile * Time) :=
  '(b1, a) <- getAttrs b ;; ret (b1, ModTime_ a).

(** [blobFile.IsDir]; it assigns no field of the handle. *)
Definition IsDir (b : blobFile) : M W bool :=
  let nm := name b in
  if negb (String.eqb (GoStrings.Ext nm) "") then ret false
  else
    let nm := if String.eqb nm "." then "/" else nm in
    if isDir b then ret true
    else
      '(fileExists, _) <- Exists nm ;;
      if fileExists then ret false
      else
        '(r, _) <- ListPage nm "/" 1 ;;
        ret (0 <? Z.of_nat (length r)).

(** [fs.FileMode]: only [fs.ModeDir] and [0] occur. *)
Inductive FileMode : Type := ModeDir | ModeRegular.

(** [blobFile.Mode] and [blobFile.Type]. *)
Definition Mode (b : blobFile) : M W FileMode :=
  d <- IsDir b ;; if d then ret ModeDir else ret ModeRegular.

(** [b.contents[off:]]: [None] is the run-time panic "slice bounds out of
    range", raised when [off] is negative or above the length. *)
Definition slice_from (c : Bytes) (off : Z) : option (list Byte.byte) :=
  if (off <? 0) || (len c <? off) then None
  else Some (skipn (Z.to_nat off)
                   (match c with Some l => l | None => [] end)).

(** [copy(dst, src)]: the count and [dst] afterwards. *)
Definition copy (dst src : list Byte.byte) : Z * list Byte.byte :=
  let n := Nat.min (length dst) (length src) in
  (Z.of_nat n, (firstn n src ++ skipn n dst)%list).

(** What [Read] does: it returns [(n, err)], [buf] holding the bytes
    copied, or it panics. *)
Inductive ReadResult : Type :=
| ReadRet (n : Z) (buf : Bytes) (err : option error)
| ReadPanic.

(** [blobFile.Read]. *)
Definition Read (b : blobFile) (buf : Bytes) : M W (blobFile * ReadResult) :=
  match buf with
  | None => ret (b, ReadRet 0 None None)
  | Some dst =>
      '(b1, err) <- match contents b with
                    | None =>
                        '(c, err) <- ReadAll (name b) ;;
                        ret (set_contents b c, err)
                    | Some _ => ret (b, None)
                    end ;;
      match err with
      | Some e => ret (b1, ReadRet 0 buf (Some e))
      | None =>
          match slice_from (contents b1) (offset b1) with
          | None => ret (b1, ReadPanic)
          | Some src =>
              let (n, dst') := copy dst src in
              let b2 := set_offset b1 (wrap64 (offset b1 + n)) in
              if n =? 0
              then ret (b2, ReadRet n (Some dst') (Some EOF))
              else ret (b2, ReadRet n (Some dst') None)
          end
      end
  end.

(** [blobFile.Close]. *)
Definition Close (b : blobFile) : option error := None.

(** The entry [ReadDir] builds for a listed object. *)
Definition dirEntry (bfs : blobFS) (o : ListObject) : blobFile :=
  set_isDir (newBlobFile bfs (Key o)) (GoStrings.HasSuffix (Key o) "/").

(** The [for] loop of [ReadDir], one arm per outcome of [iter.Next]:
    the iterator afterwards and the values returned. *)
Fixpoint readDirLoop (bfs : blobFS) (n : Z) (it : ListIterator)
    (results : list blobFile)
  : ListIterator * (list blobFile * option error) :=
  match it with
  | [] =>
      ([], if is_EOF EOF && (n <? 0) then (results, None)
           else (results, Some EOF))
  | inr e :: rest =>
      (rest, if is_EOF e && (n <? 0) then (results, None)
             else (results, Some e))
  | inl o :: rest =>
      let results' := (results ++ [dirEntry bfs o])%list in
      if (0 <? n) && (n <=? Z.of_nat (length results'))
      then (rest, (results', None))
      else readDirLoop bfs n rest results'
  end.

(** The prefix [ReadDir] lists. *)
Definition dirPrefix (nm : string) : string :=
  let nm := GoStrings.TrimPrefix nm "." in
  if negb (String.eqb nm "") && negb (GoStrings.HasSuffix nm "/")
  then nm ++ "/" else nm.

(** [blobFile.ReadDir]. *)
Definition ReadDir (b : blobFile) (n : Z)
  : M W (blobFile * (list blobFile * option error)) :=
  let nm := dirPrefix (name b) in
  it <- match iter b with
        | None => List_ nm "/"
        | Some it => ret it
        end ;;
  let (it', res) := readDirLoop (fs b) n it [] in
  ret (set_iter b (Some it'), res).

(** [blobFile.Info]. *)
Definition Info (b : blobFile) : blobFile * option error := (b, None).

(** [blobFile.Seek]. *)
Definition Seek (b : blobFile) (off whence : Z)
  : M W (blobFile * (Z * option error)) :=
  if whence =? SeekStart then
    let b1 := set_offset b off in ret (b1, (offset b1, None))
  else if whence =? SeekCurrent then
    let b1 := set_offset b (wrap64 (offset b + off)) in
    ret (b1, (offset b1, None))
  else if whence =? SeekEnd then
    '(b1, sz) <- Size b ;;
    let b2 := set_offset b1 (wrap64 (sz + off)) in
    ret (b2, (offset b2, None))
  else ret (b, (0, Some (ErrorsNew "invalid whence"))).

End Code.

(** ** Concrete buckets, the inputs of the examples *)

(** The five bytes of "hello", what the package's test writes to each key. *)
Definition hello : list Byte.byte :=
  [Byte.x68; Byte.x65; Byte.x6c; Byte.x6c; Byte.x6f].

Module MemBucket.

(** An object of an in-memory bucket. *)
Record Object : Type := mkObject {
  objKey : string;
  objData : list Byte.byte;
  objModTime : Time
}.

Definition find (objs : list Object) (key : string) : option Object :=
  List.find (fun o => String.eqb (objKey o) key) objs.

(** The entry a delimiter-bounded listing shows for [key]: the key
    itself, or the key cut after the first delimiter that follows the
    prefix, which stands for a directory. *)
Definition listEntry (pre delim key : string) : ListObject :=
  let rest :=
    substring (String.length pre) (String.length key - String.length pre) key in
  if String.eqb delim "" then mkListObject key false
  else
    match String.index 0 delim rest with
    | Some i =>
        mkListObject
          (substring 0 (String.length pre + i + String.length delim) key) true
    | None => mkListObject key false
    end.

(** The whole listing under a prefix, repeated directory entries shown
    once; [last] is the key of the entry shown last. *)
Fixpoint listing (pre delim : string) (last : option string)
    (objs : list Object) : list ListObject :=
  match objs with
  | []%list => []%list
  | (o :: rest)%list =>
      if String.prefix pre (objKey o) then
        let e := listEntry pre delim (objKey o) in
        if match last with
           | Some k => String.eqb k (Key e)
           | None => false
           end
        then listing pre delim last rest
        else (e :: listing pre delim (Some (Key e)) rest)%list
      else listing pre delim last rest
  end.

(** A fault-free bucket holding [objs], given in key order.  Its store
    state never changes. *)
Definition bucket (objs : list Object) : Bucket unit :=
  {| bkExists := fun key s =>
       ((match find objs key with Some _ => true | None => false end, None), s);
     bkAttributes := fun key s =>
       (match find objs key with
        | Some o =>
            (Some (mkAttributes (Z.of_nat (length (objData o))) (objModTime o)),
             None)
        | None => (None, Some (StoreErr "not found"))
        end, s);
     bkReadAll := fun key s =>
       (match find objs key with
        | Some o => (Some (objData o), None)
        | None => (None, Some (StoreErr "not found"))
        end, s);
     bkListPage := fun pre delim pageSize s =>
       ((firstn (Z.to_nat pageSize) (listing pre delim None objs), None), s);
     bkList := fun pre delim s =>
       List.map inl (listing pre delim None objs) |}.

End MemBucket.

(** A bucket whose listing call fails: no exact object under any key, and
    every [ListPage] answers [(nil, err)]. *)
Definition listFaultBucket : Bucket unit :=
  {| bkExists := fun key s => ((false, None), s);
     bkAttributes := fun key s => ((None, Some (StoreErr "not found")), s);
     bkReadAll := fun key s => ((None, Some (StoreErr "not found")), s);
     bkListPage := fun pre delim pageSize s =>
       (([]%list, Some (StoreErr "list: connection reset")), s);
     bkList := fun pre delim s => [inr (StoreErr "list: connection reset")]%list |}.

(** The world before any call. *)
Definition world0 : World unit := mkWorld tt []%list.

(** A file system value; [Open] and the handles never read its fields. *)
Definition testFS : blobFS := mkBlobFS "" "".

(** The bucket of the package's "ep, foo bar baz" test case, in key order. *)
Definition fooBarBaz : Bucket unit :=
  MemBucket.bucket
    [MemBucket.mkObject "bar" hello 1;
     MemBucket.mkObject "baz/bar" hello 2;
     MemBucket.mkObject "foo" hello 3]%list.

(** The handle of "foo" once its content is fetched, at offset [o]. *)
Definition fooAt (o : Z) : blobFile :=
  set_offset (set_contents (newBlobFile testFS "foo") (Some hello)) o.

(** ** Vocabulary of the properties *)

(** [Open]'s error kinds: Not Found, and an I/O error carrying the store's
    error. *)
Definition NotFound (nm : string) : error := PathError "open" nm ErrNotExist.

Definition IOError (nm : string) (e : error) : error := PathError "open" nm e.

Definition opened (r : OpenResult) : Prop :=
  match r with
  | Opened _ => True
  | OpenFailed _ => False
  end.

Section Probes.

Context {W : Type}.
Variable B : Bucket W.

(** What the exact-key query answers for [nm] in world [w]. *)
Definition probeExists (nm : string) (w : World W) : bool * option error :=
  fst (bkExists B nm (store w)).

(** What the one-page listing with prefix [nm] and delimiter "/" answers
    when asked right after the exact-key query. *)
Definition probeList (nm : string) (w : World W)
  : list ListObject * option error :=
  fst (bkListPage B nm "/" 1 (snd (bkExists B nm (store w)))).

(** The store reports no fault to the two queries. *)
Definition no_faults (nm : string) (w : World W) : Prop :=
  snd (probeExists nm w) = None /\ snd (probeList nm w) = None.

(** The convention of the bucket's client library: a call that reports an
    error carries the zero value.  A store without faults meets it. *)
Definition zero_on_error (nm : string) (w : World W) : Prop :=
  (snd (probeExists nm w) <> None -> fst (probeExists nm w) = false) /\
  (snd (probeList nm w) <> None -> fst (probeList nm w) = []%list).

(** The world after the exact-key query alone, and after both queries. *)
Definition afterExists (nm : string) (w : World W) : World W :=
  mkWorld (snd (bkExists B nm (store w))) (calls w ++ [CExists nm])%list.

Definition afterList (nm : string) (w : World W) : World W :=
  mkWorld (snd (bkListPage B nm "/" 1 (store (afterExists nm w))))
          (calls w ++ [CExists nm; CListPage nm "/" 1])%list.

End Probes.

(** The segments of a slash-separated path; [acc] is the segment being
    read. *)
Fixpoint segments_from (acc s : string) : list string :=
  match s with
  | EmptyString => [acc]%list
  | String c s' =>
      if Ascii.eqb c "/" then (acc :: segments_from "" s')%list
      else segments_from (acc ++ String c "") s'
  end.

Definition segments (s : string) : list string := segments_from "" s.

(** Path validity in the words of the specification: the root "." is
    valid; any other path is valid when it has no empty segment (which
    rules out the absolute form, a doubled and a trailing slash) and no
    ".." segment.  The code never computes it. *)
Definition validPath (nm : string) : bool :=
  String.eqb nm "." ||
  forallb (fun seg => negb (String.eqb seg "") && negb (String.eqb seg ".."))
          (segments nm).

(** The calls [Size] and [ModTime], to state facts about runs of them. *)
Inductive AttrQuery : Type := QSize | QModTime.

Section Runs.

Context {W : Type}.
Variable B : Bucket W.

(** No exact object under [key], in any state of the store. *)
Definition no_exact_object (key : string) : Prop :=
  forall s, fst (fst (bkExists B key s)) = false.

Definition attrQuery (q : AttrQuery) (b : blobFile) : M W (blobFile * Z) :=
  match q with
  | QSize => Size B b
  | QModTime => ModTime B b
  end.

(** A run of [Size] and [ModTime] calls on one handle: the handle
    afterwards and the values returned. *)
Fixpoint attrQueries (qs : list AttrQuery) (b : blobFile)
  : M W (blobFile * list Z) :=
  match qs with
  | []%list => ret (b, []%list)
  | (q :: rest)%list =>
      '(b1, v) <- attrQuery q b ;;
      '(b2, vs) <- attrQueries rest b1 ;;
      ret (b2, (v :: vs)%list)
  end.

(** A run of [Read] calls on one handle, one per buffer. *)
Fixpoint Reads (bufs : list Bytes) (b : blobFile)
  : M W (blobFile * list ReadResult) :=
  match bufs with
  | []%list => ret (b, []%list)
  | (buf :: rest)%list =>
      '(b1, r) <- Read B b buf ;;
      '(b2, rs) <- Reads rest b1 ;;
      ret (b2, (r :: rs)%list)
  end.

(** Whatever the bucket hands out as content is a Go slice: its length
    fits an [int]. *)
Definition bounded_objects : Prop :=
  forall key s, len (fst (fst (bkReadAll B key s))) <= maxInt64.

End Runs.

(** The methods that change or may change a handle, to state facts about
    every state a handle can get into. *)
Inductive HandleOp : Type :=
| OpStat
| OpSize
| OpModTime
| OpIsDir
| OpRead (buf : Bytes)
| OpSeek (off whence : Z)
| OpReadDir (n : Z).

Section HandleRuns.

Context {W : Type}.
Variable B : Bucket W.

(** The attribute query returns no attributes for [key], in any state of
    the store. *)
Definition no_attributes (key : string) : Prop :=
  forall s, fst (fst (bkAttributes B key s)) = None.

(** The handle after one method call; what the call returns is dropped. *)
Definition runOp (op : HandleOp) (b : blobFile) : M W blobFile :=
  match op with
  | OpStat => '(b1, _) <- Stat B b ;; ret b1
  | OpSize => '(b1, _) <- Size B b ;; ret b1
  | OpModTime => '(b1, _) <- ModTime B b ;; ret b1
  | OpIsDir => _ <- IsDir B b ;; ret b
  | OpRead buf => '(b1, _) <- Read B b buf ;; ret b1
  | OpSeek off whence => '(b1, _) <- Seek B b off whence ;; ret b1
  | OpReadDir n => '(b1, _) <- ReadDir B b n ;; ret b1
  end.

Fixpoint runOps (ops : list HandleOp) (b : blobFile) : M W blobFile :=
  match ops with
  | []%list => ret b
  | (op :: rest)%list => b1 <- runOp op b ;; runOps rest b1
  end.

End HandleRuns.

(** The invariant of the offset: within the content held by the handle,
    the content being a Go slice. *)
Definition offset_in_bounds (b : blobFile) : Prop :=
  0 <= offset b <= len (contents b) /\ len (contents b) <= maxInt64.

(** ** The rest of the package: New, Name, Sys, and runs of calls *)

Module GoFilepath.

(** [os.IsPathSeparator], for the separator '/'. *)
Definition isSep (c : ascii) : bool := Ascii.eqb c "/".

(** The loop of [filepath.Base] that strips trailing separators,
    [for len(path) > 0 && os.IsPathSeparator(path[len(path)-1])], on the
    characters of the path taken from its end. *)
Fixpoint dropSeps (r : list ascii) : list ascii :=
  match r with
  | (c :: r')%list => if isSep c then dropSeps r' else r
  | []%list => []%list
  end.

(** The loop of [filepath.Base] that looks for the last separator,
    [for i >= 0 && !os.IsPathSeparator(path[i])], and the cut
    [path[i+1:]]: the characters met before the separator, again from the
    end of the path. *)
Fixpoint lastElem (r : list ascii) : list ascii :=
  match r with
  | (c :: r')%list => if isSep c then []%list else (c :: lastElem r')%list
  | []%list => []%list
  end.

(** [filepath.Base]; there is no volume name where '/' separates. *)
Definition Base (path : string) : string :=
  if String.eqb path "" then "."
  else
    match lastElem (dropSeps (rev (list_ascii_of_string path))) with
    | []%list => "/"
    | r => string_of_list_ascii (rev r)
    end.

End GoFilepath.

(** [strings.TrimSuffix]. *)
Definition TrimSuffix (s suffix : string) : string :=
  if GoStrings.HasSuffix s suffix
  then substring 0 (String.length s - String.length suffix) s
  else s.

(** [fmt.Sprintf("%s/%s/", version, strings.TrimSuffix(prefix, "/"))], the
    key prefix [New] roots the bucket at. *)
Definition subPath (version prefix : string) : string :=
  version ++ "/" ++ TrimSuffix prefix "/" ++ "/".

(** [New]: the file system, the key prefix handed to
    [blob.PrefixedBucket], and the error, which is always nil. *)
Definition New (version prefix : string) : (blobFS * string) * option error :=
  ((mkBlobFS version prefix, subPath version prefix), None).

(** [blobFile.Name]. *)
Definition Name (b : blobFile) : string := GoFilepath.Base (name b).

(** The bytes a [Read] hands to its caller: the first [n] of the buffer. *)
Definition delivered (r : ReadResult) : list Byte.byte :=
  match r with
  | ReadRet n (Some buf) _ => firstn (Z.to_nat n) buf
  | _ => []%list
  end.

(** The room in a list of buffers. *)
Definition capacity (bufs : list Bytes) : nat :=
  fold_right (fun buf acc => (Z.to_nat (len buf) + acc)%nat) 0%nat bufs.

(** No '/' in a string. *)
Definition slashFree (s : string) : bool :=
  forallb (fun c => negb (GoFilepath.isSep c)) (list_ascii_of_string s).

Section DirRuns.

Context {W : Type}.
Variable B : Bucket W.

(** A run of [ReadDir] calls on one handle, one per limit: the handle
    afterwards and what each call returned. *)
Fixpoint ReadDirs (ns : list Z) (b : blobFile)
  : M W (blobFile * list (list blobFile * option error)) :=
  match ns with
  | []%list => ret (b, []%list)
  | (n :: rest)%list =>
      '(b1, page) <- ReadDir B b n ;;
      '(b2, pages) <- ReadDirs rest b1 ;;
      ret (b2, (page :: pages)%list)
  end.

End DirRuns.

Section QueryWorlds.

Context {W : Type}.
Variable B : Bucket W.

(** What the attribute query answers for [nm] in world [w], and the world
    after it. *)
Definition probeAttributes (nm : string) (w : World W)
  : option Attributes * option error :=
  fst (bkAttributes B nm (store w)).

Definition afterAttributes (nm : string) (w : World W) : World W :=
  mkWorld (snd (bkAttributes B nm (store w))) (calls w ++ [CAttributes nm])%list.

(** What the one-page listing with prefix [nm] and delimiter "/" answers
    in world [w], and the world after it. *)
Definition probeListPage (nm : string) (w : World W)
  : list ListObject * option error :=
  fst (bkListPage B nm "/" 1 (store w)).

Definition afterListPage (nm : string) (w : World W) : World W :=
  mkWorld (snd (bkListPage B nm "/" 1 (store w)))
          (calls w ++ [CListPage nm "/" 1])%list.

End QueryWorlds.

(** The entries the root of the test bucket lists, and a root handle whose
    iterator has them all left. *)
Definition rootEntries : list ListObject :=
  [mkListObject "bar" false; mkListObject "baz/" true;
   mkListObject "foo" false]%list.

Definition rootListing : blobFile :=
  set_iter (newBlobFile testFS "") (Some (List.map inl rootEntries)).


(** A bucket whose fetch breaks off: [ReadAll] answers the first two bytes
    of "hello" together with an error, as it does when the connection is
    lost while the object is read. *)
Definition truncatingBucket : Bucket unit :=
  {| bkExists := fun key s => ((true, None), s);
     bkAttributes := fun key s => ((Some (mkAttributes 5 3), None), s);
     bkReadAll := fun key s =>
       ((Some [Byte.x68; Byte.x65]%list, Some (StoreErr "unexpected EOF")), s);
     bkListPage := fun pre delim pageSize s => (([]%list, None), s);
     bkList := fun pre delim s => []%list |}.

(** The invocations of [bucket.List] in a call log, each with its prefix
    and delimiter.  An entry records that [List] was invoked and with what
    options; it stands for no fetch, the pages of a listing being fetched
    inside [Next]. *)
Fixpoint listInvocations (cs : list Call) : list (string * string) :=
  match cs with
  | []%list => []%list
  | (CList pre delim :: rest)%list => ((pre, delim) :: listInvocations rest)%list
  | (_ :: rest)%list => listInvocations rest
  end.

(** ** Properties of Open *)

Section OpenProperties.

Context {W : Type}.
Variable B : Bucket W.

Lemma no_faults_zero_on_error (nm : string) (w : World W) :
  no_faults B nm w -> zero_on_error B nm w.
Proof.
  intros [He Hl]. split; intros H; contradiction.
Qed.

(** [exists] in terms of the two answers. *)
Lemma exists_unfold (nm : string) (w : World W) :
  exists_ B nm w =
    if fst (probeExists B nm w)
    then ((true, snd (probeExists B nm w)), afterExists B nm w)
    else (match snd (probeList B nm w) with
          | Some e => (false, Some e)
          | None => (0 <? Z.of_nat (length (fst (probeList B nm w))), None)
          end, afterList B nm w).
Proof.
  unfold exists_, bind, Exists, ListPage, probeExists, probeList,
    afterList, afterExists, ret.
  destruct (bkExists B nm (store w)) as [[fe e1] s1]; cbn.
  destruct fe; cbn; [reflexivity|].
  destruct (bkListPage B nm "/" 1 s1) as [[r e2] s2]; cbn.
  rewrite <- app_assoc; cbn.
  destruct e2; reflexivity.
Qed.

(** [Open] in terms of the two answers. *)
Lemma Open_unfold (b : blobFS) (nm : string) (w : World W) :
  nm <> "." ->
  Open B b nm w =
    if fst (probeExists B nm w)
    then (match snd (probeExists B nm w) with
          | Some e => OpenFailed (IOError nm e)
          | None => Opened (newBlobFile b nm)
          end, afterExists B nm w)
    else (match snd (probeList B nm w) with
          | Some e => OpenFailed (NotFound nm)
          | None =>
              if 0 <? Z.of_nat (length (fst (probeList B nm w)))
              then Opened (newBlobFile b nm)
              else OpenFailed (NotFound nm)
          end, afterList B nm w).
Proof.
  intros Hnm. unfold Open.
  destruct (String.eqb_spec nm ".") as [->|_]; [contradiction|].
  unfold bind. rewrite exists_unfold.
  destruct (fst (probeExists B nm w)); cbn.
  - destruct (snd (probeExists B nm w)); reflexivity.
  - destruct (snd (probeList B nm w)); cbn; [reflexivity|].
    destruct (0 <? Z.of_nat (length (fst (probeList B nm w)))); reflexivity.
Qed.

Lemma length_pos_nonempty {A : Type} (l : list A) :
  (0 <? Z.of_nat (length l)) = true <-> l <> []%list.
Proof.
  destruct l; cbn; split; intros H; congruence || reflexivity.
Qed.

(** C1.  For a path other than ".", in a store that follows the client
    library's convention (in particular in one that reports no fault),
    Open succeeds exactly when the exact-key query answers true or the
    one-page delimiter-bounded listing with the path as prefix has a
    result.  When neither holds Open fails with Not Found, whatever the
    store reports; without faults Open never fails with an I/O error; and
    Open(".") succeeds and calls the store not at all. *)
Theorem Open_classification (b : blobFS) (nm : string) (w : World W) :
  nm <> "." ->
  (zero_on_error B nm w ->
     (opened (fst (Open B b nm w)) <->
      fst (probeExists B nm w) = true \/ fst (probeList B nm w) <> []%list))
  /\ (fst (probeExists B nm w) = false ->
      fst (probeList B nm w) = []%list ->
      fst (Open B b nm w) = OpenFailed (NotFound nm))
  /\ (no_faults B nm w ->
      fst (Open B b nm w) = Opened (newBlobFile b nm) \/
      fst (Open B b nm w) = OpenFailed (NotFound nm))
  /\ Open B b "." w = (Opened (newBlobFile b ""), w).
Proof.
  intros Hnm. rewrite (Open_unfold b nm w Hnm).
  repeat split.
  - (* succeeds -> one of the two answers is positive *)
    destruct H as [Hze Hzl].
    destruct (fst (probeExists B nm w)) eqn:Efe; cbn; [now left|].
    destruct (snd (probeList B nm w)) eqn:Ee2; cbn; [contradiction|].
    destruct (0 <? Z.of_nat (length (fst (probeList B nm w)))) eqn:El;
      cbn; [|contradiction].
    intros _. right. now apply length_pos_nonempty.
  - (* a positive answer -> succeeds *)
    destruct H as [Hze Hzl].
    destruct (fst (probeExists B nm w)) eqn:Efe; cbn.
    + intros _. destruct (snd (probeExists B nm w)) eqn:Ee1; cbn; [|exact I].
      assert (true = false) by (apply Hze; discriminate). discriminate.
    + intros [Hf|Hr]; [discriminate|].
      destruct (snd (probeList B nm w)) eqn:Ee2; cbn.
      * exfalso. apply Hr, Hzl. discriminate.
      * apply length_pos_nonempty in Hr. rewrite Hr. exact I.
  - intros Hfe Hr. rewrite Hfe, Hr; cbn.
    destruct (snd (probeList B nm w)); reflexivity.
  - intros [He Hl].
    destruct (fst (probeExists B nm w)); cbn.
    + rewrite He. now left.
    + rewrite Hl.
      destruct (0 <? Z.of_nat (length (fst (probeList B nm w))));
        [now left | now right].
Qed.

(** [Open] of a path other than "." starts with the exact-key query,
    whatever the path looks like. *)
Lemma Open_queries_first (b : blobFS) (nm : string) (w : World W) :
  nm <> "." ->
  exists rest,
    calls (snd (Open B b nm w)) = (calls w ++ CExists nm :: rest)%list.
Proof.
  intros Hnm. rewrite (Open_unfold b nm w Hnm).
  destruct (fst (probeExists B nm w)); cbn.
  - exists []%list. reflexivity.
  - exists [CListPage nm "/" 1]%list. reflexivity.
Qed.

(** A listing that fails after a negative exact-key answer is reported as
    Not Found: the [!exists] test of [Open] comes before its [err != nil]
    test. *)
Lemma Open_list_fault (b : blobFS) (nm : string) (w : World W) (e : error) :
  nm <> "." ->
  fst (probeExists B nm w) = false ->
  snd (probeList B nm w) = Some e ->
  fst (Open B b nm w) = OpenFailed (NotFound nm).
Proof.
  intros Hnm Hfe He. rewrite (Open_unfold b nm w Hnm), Hfe, He.
  reflexivity.
Qed.

End OpenProperties.

(** Open_classification on the test bucket: at the directory "baz", where
    the listing is positive, and at "qux", where neither answer is. *)
Lemma Open_classification_witness :
  ("baz" <> "." /\
   zero_on_error fooBarBaz "baz" world0 /\
   no_faults fooBarBaz "baz" world0 /\
   opened (fst (Open fooBarBaz testFS "baz" world0)))
  /\
  ("qux" <> "." /\
   fst (probeExists fooBarBaz "qux" world0) = false /\
   fst (probeList fooBarBaz "qux" world0) = []%list /\
   fst (Open fooBarBaz testFS "qux" world0) = OpenFailed (NotFound "qux")).
Proof.
  assert (Hbaz : "baz" <> ".") by discriminate.
  assert (Hqux : "qux" <> ".") by discriminate.
  assert (Hn : no_faults fooBarBaz "baz" world0) by (split; reflexivity).
  assert (Hz : zero_on_error fooBarBaz "baz" world0)
    by (split; intros H; exfalso; apply H; reflexivity).
  split.
  - split; [exact Hbaz|]. split; [exact Hz|]. split; [exact Hn|].
    apply (proj1 (Open_classification fooBarBaz testFS "baz" world0 Hbaz) Hz).
    right. discriminate.
  - split; [exact Hqux|]. split; [reflexivity|]. split; [reflexivity|].
    exact (proj1 (proj2 (Open_classification fooBarBaz testFS "qux" world0 Hqux))
                 eq_refl eq_refl).
Defined.

(** C6.  At the failing input: the store has no exact object "assets" and
    its listing call fails.  Open makes both calls and reports Not Found,
    where the specification asks for an I/O error carrying the store's error. *)
Theorem Open_list_fault_is_not_found :
  snd (probeList listFaultBucket "assets" world0)
    = Some (StoreErr "list: connection reset") /\
  Open listFaultBucket testFS "assets" world0
    = (OpenFailed (PathError "open" "assets" ErrNotExist),
       mkWorld tt [CExists "assets"; CListPage "assets" "/" 1]%list).
Proof.
  split; reflexivity.
Qed.

(** C4.  At the failing input: "baz/" has an empty last segment, so it is
    not a valid path, yet Open queries the store for it and, the listing
    under that prefix being non-empty, returns a handle. *)
Theorem Open_accepts_invalid_path :
  validPath "baz/" = false /\
  Open fooBarBaz testFS "baz/" world0
    = (Opened (newBlobFile testFS "baz/"),
       mkWorld tt [CExists "baz/"; CListPage "baz/" "/" 1]%list).
Proof.
  split; reflexivity.
Qed.

(** ** Properties of the attribute cache *)

Section AttributeProperties.

Context {W : Type}.
Variable B : Bucket W.

Lemma set_attrs_same (b : blobFile) : set_attrs b (attrs b) = b.
Proof. destruct b; reflexivity. Qed.

(** With attributes on the handle, [getAttrs] answers from them. *)
Lemma getAttrs_cached (b : blobFile) (a : Attributes) (w : World W) :
  attrs b = Some a -> getAttrs B b w = ((b, a), w).
Proof.
  intros Ha. unfold getAttrs. rewrite Ha. reflexivity.
Qed.

(** With nothing on the handle and no exact object, [getAttrs] asks the
    store, hands out zero attributes and keeps nothing. *)
Lemma getAttrs_absent (b : blobFile) (w : World W) :
  attrs b = None ->
  fst (probeExists B (name b) w) = false ->
  getAttrs B b w = ((b, zeroAttributes), afterExists B (name b) w).
Proof.
  intros Ha He. unfold getAttrs, bind, Exists, ret, afterExists.
  unfold probeExists in He. rewrite Ha.
  destruct (bkExists B (name b) (store w)) as [[fe e] s1]; cbn in *.
  subst fe. rewrite Ha. reflexivity.
Qed.


(** [getAttrs] on a key without exact object leaves an empty cache
    empty and the name as it is. *)
Lemma getAttrs_keeps_empty (b : blobFile) (w : World W) :
  attrs b = None ->
  no_exact_object B (name b) ->
  fst (fst (getAttrs B b w)) = b.
Proof.
  intros Ha Habs. now rewrite (getAttrs_absent b w Ha (Habs (store w))).
Qed.

(** [Read] assigns neither the attributes nor the name. *)
Lemma Read_keeps_attrs (b : blobFile) (buf : Bytes) (w : World W) :
  attrs b = attrs (fst (fst (Read B b buf w))) /\
  name b = name (fst (fst (Read B b buf w))).
Proof.
  destruct (Read B b buf w) as [[b' r] w'] eqn:ER. cbn.
  unfold Read in ER. destruct buf as [dst|];
    [|inversion ER; subst; split; reflexivity].
  unfold bind at 1 in ER.
  destruct (match contents b with
            | Some _ => ret (b, None)
            | None =>
                bind (ReadAll B (name b))
                     (fun x => let (c, err) := x in ret (set_contents b c, err))
            end w) as [[b1 err] w1] eqn:E.
  assert (H1 : attrs b = attrs b1 /\ name b = name b1).
  { destruct (contents b).
    - inversion E; subst. split; reflexivity.
    - unfold bind, ReadAll, ret in E.
      destruct (bkReadAll B (name b) (store w)) as [[c' e] s1].
      inversion E; subst. split; reflexivity. }
  destruct err as [e|]; [inversion ER; subst; exact H1|].
  destruct (slice_from (contents b1) (offset b1)) as [src|];
    [|inversion ER; subst; exact H1].
  destruct (copy dst src) as [n dst'].
  destruct (n =? 0); inversion ER; subst; exact H1.
Qed.

(** No method puts attributes on a handle whose key has no exact object
    and no attributes in the store: a handle that starts without cached
    attributes, as every handle made by Open or ReadDir does, never has
    any. *)
Lemma runOp_keeps_empty (op : HandleOp) (b : blobFile) (w : World W) :
  attrs b = None ->
  no_exact_object B (name b) ->
  no_attributes B (name b) ->
  attrs (fst (runOp B op b w)) = None /\
  name (fst (runOp B op b w)) = name b.
Proof.
  intros Ha Habs Hna.
  assert (HG : getAttrs B b w = ((b, zeroAttributes), afterExists B (name b) w))
    by (apply getAttrs_absent; [exact Ha | apply Habs]).
  destruct op; unfold runOp, bind.
  - (* Stat *)
    unfold Stat, bind, GetAttributes, ListPage, ret.
    specialize (Hna (store w)).
    destruct (bkAttributes B (name b) (store w)) as [[oa e] s1].
    cbn in Hna; subst oa. destruct e as [e|]; cbn.
    + destruct (bkListPage B (name b) "/" 1 s1) as [[r e2] s2]; cbn.
      destruct (Nat.eqb (length r) 0); cbn; split; reflexivity || exact Ha.
    + split; reflexivity.
  - unfold Size, bind. rewrite HG. cbn. split; [exact Ha | reflexivity].
  - unfold ModTime, bind. rewrite HG. cbn. split; [exact Ha | reflexivity].
  - destruct (IsDir B b w). cbn. split; [exact Ha | reflexivity].
  - (* Read *)
    pose proof (Read_keeps_attrs b buf w) as [R1 R2].
    destruct (Read B b buf w) as [[b1 r] w1]. cbn in *. split; congruence.
  - (* Seek *)
    unfold Seek.
    destruct (whence =? SeekStart); [cbn; split; [exact Ha | reflexivity]|].
    destruct (whence =? SeekCurrent); [cbn; split; [exact Ha | reflexivity]|].
    destruct (whence =? SeekEnd); [|cbn; split; [exact Ha | reflexivity]].
    unfold bind, Size, bind. rewrite HG. cbn. split; [exact Ha | reflexivity].
  - (* ReadDir *)
    unfold ReadDir, bind.
    destruct (match iter b with
              | Some it => ret it
              | None => List_ B (dirPrefix (name b)) "/"
              end w) as [it w1].
    destruct (readDirLoop (fs b) n it []%list) as [it' res].
    cbn. split; [exact Ha | reflexivity].
Qed.

Lemma runOps_keeps_empty (ops : list HandleOp) (b : blobFile) (w : World W) :
  attrs b = None ->
  no_exact_object B (name b) ->
  no_attributes B (name b) ->
  attrs (fst (runOps B ops b w)) = None /\
  name (fst (runOps B ops b w)) = name b.
Proof.
  revert b w. induction ops as [|op ops IH]; intros b w Ha Habs Hna; cbn.
  - split; [exact Ha | reflexivity].
  - unfold bind.
    destruct (runOp_keeps_empty op b w Ha Habs Hna) as [H1 H2].
    destruct (runOp B op b w) as [b1 w1]. cbn in H1, H2.
    rewrite <- H2 in Habs, Hna.
    destruct (IH b1 w1 H1 Habs Hna) as [H3 H4].
    split; [exact H3 | congruence].
Qed.

Lemma attrQuery_absent (q : AttrQuery) (b : blobFile) (w : World W) :
  attrs b = None ->
  fst (probeExists B (name b) w) = false ->
  attrQuery B q b w = ((b, 0), afterExists B (name b) w).
Proof.
  intros Ha He. destruct q; unfold attrQuery, Size, ModTime, bind;
    rewrite (getAttrs_absent b w Ha He); reflexivity.
Qed.

(** C10.  Size and ModTime return a value and no error, by their type.
    On a handle with nothing cached whose key has no exact object, every
    call of a run of Size and ModTime calls returns zero (for ModTime the
    zero time), the handle stays as it was, still with nothing cached,
    and each call asks the store again: the log grows by one exact-key
    query per call.  Such a handle stays such a handle: when the store has
    no attributes for the key either, no run of methods puts attributes on
    it. *)
Theorem Size_ModTime_of_absent_key
    (b : blobFile) (qs : list AttrQuery) (w : World W) :
  attrs b = None ->
  no_exact_object B (name b) ->
  fst (fst (attrQueries B qs b w)) = b
  /\ snd (fst (attrQueries B qs b w)) = repeat 0 (length qs)
  /\ calls (snd (attrQueries B qs b w))
      = (calls w ++ repeat (CExists (name b)) (length qs))%list
  /\ Size B b w = ((b, 0), afterExists B (name b) w)
  /\ ModTime B b w = ((b, zeroTime), afterExists B (name b) w)
  /\ (no_attributes B (name b) ->
      forall ops w0,
        attrs (fst (runOps B ops b w0)) = None /\
        name (fst (runOps B ops b w0)) = name b).
Proof.
  intros Ha Habs.
  assert (Hrun : forall qs w,
             attrQueries B qs b w =
             ((b, repeat 0 (length qs)),
              snd (attrQueries B qs b w)) /\
             calls (snd (attrQueries B qs b w))
             = (calls w ++ repeat (CExists (name b)) (length qs))%list).
  { clear w qs. induction qs as [|q qs IH]; intros w; cbn.
    - split; [reflexivity|]. now rewrite app_nil_r.
    - unfold bind.
      rewrite (attrQuery_absent q b w Ha (Habs (store w))).
      destruct (IH (afterExists B (name b) w)) as [IH1 IH2].
      rewrite IH1; cbn. split; [reflexivity|].
      rewrite IH2; cbn. now rewrite <- app_assoc. }
  destruct (Hrun qs w) as [H1 H2].
  repeat split.
  - now rewrite H1.
  - now rewrite H1.
  - exact H2.
  - exact (attrQuery_absent QSize b w Ha (Habs (store w))).
  - exact (attrQuery_absent QModTime b w Ha (Habs (store w))).
  - exact (proj1 (runOps_keeps_empty ops b w0 Ha Habs H)).
  - exact (proj2 (runOps_keeps_empty ops b w0 Ha Habs H)).
Qed.

End AttributeProperties.



(** Size_ModTime_of_absent_key at the directory "baz" of the test bucket,
    for the run Size, ModTime, Size, and for the handle after Stat, Size
    and a Seek from the end. *)
Lemma Size_ModTime_of_absent_key_witness :
  attrs (newBlobFile testFS "baz") = None /\
  no_exact_object fooBarBaz "baz" /\
  no_attributes fooBarBaz "baz" /\
  snd (fst (attrQueries fooBarBaz [QSize; QModTime; QSize]%list
              (newBlobFile testFS "baz") world0)) = [0; 0; 0]%list /\
  calls (snd (attrQueries fooBarBaz [QSize; QModTime; QSize]%list
                (newBlobFile testFS "baz") world0))
  = [CExists "baz"; CExists "baz"; CExists "baz"]%list /\
  attrs (fst (runOps fooBarBaz [OpStat; OpSize; OpSeek 0 SeekEnd]%list
                (newBlobFile testFS "baz") world0)) = None.
Proof.
  assert (Ha : attrs (newBlobFile testFS "baz") = None) by reflexivity.
  assert (Hn : no_exact_object fooBarBaz (name (newBlobFile testFS "baz")))
    by (intros s; reflexivity).
  assert (Hna : no_attributes fooBarBaz (name (newBlobFile testFS "baz")))
    by (intros s; reflexivity).
  split; [exact Ha|]. split; [exact Hn|]. split; [exact Hna|].
  destruct (Size_ModTime_of_absent_key fooBarBaz (newBlobFile testFS "baz")
              [QSize; QModTime; QSize]%list world0 Ha Hn)
    as (_ & Hv & Hc & _ & _ & Hr).
  split; [exact Hv|]. split; [exact Hc|].
  exact (proj1 (Hr Hna [OpStat; OpSize; OpSeek 0 SeekEnd]%list world0)).
Defined.

(** ** Properties of the directory kind *)

Section KindProperties.

Context {W : Type}.
Variable B : Bucket W.

(** [Open] returns no other handle than the fresh one. *)
Lemma Open_handle (b : blobFS) (nm : string) (w : World W) (h : blobFile) :
  nm <> "." ->
  fst (Open B b nm w) = Opened h ->
  h = newBlobFile b nm.
Proof.
  intros Hnm. rewrite (Open_unfold B b nm w Hnm).
  destruct (fst (probeExists B nm w)); cbn.
  - destruct (snd (probeExists B nm w)); intros H; inversion H; reflexivity.
  - destruct (snd (probeList B nm w)); [discriminate|].
    destruct (0 <? Z.of_nat (length (fst (probeList B nm w))));
      intros H; inversion H; reflexivity.
Qed.

(** [IsDir] on a handle whose kind is not recorded. *)
Lemma IsDir_unrecorded (b : blobFile) (w : World W) :
  isDir b = false ->
  name b <> "." ->
  IsDir B b w =
    if negb (String.eqb (GoStrings.Ext (name b)) "") then (false, w)
    else if fst (probeExists B (name b) w)
         then (false, afterExists B (name b) w)
         else (0 <? Z.of_nat (length (fst (probeList B (name b) w))),
               afterList B (name b) w).
Proof.
  intros Hd Hnm. unfold IsDir.
  destruct (negb (String.eqb (GoStrings.Ext (name b)) "")); [reflexivity|].
  destruct (String.eqb_spec (name b) ".") as [E|_]; [contradiction|].
  rewrite Hd.
  unfold bind, Exists, ListPage, ret, probeExists, probeList,
    afterList, afterExists; cbn.
  destruct (bkExists B (name b) (store w)) as [[fe e1] s1]; cbn.
  destruct fe; cbn; [reflexivity|].
  destruct (bkListPage B (name b) "/" 1 s1) as [[r e2] s2]; cbn.
  now rewrite <- app_assoc.
Qed.

(** C8 (amended).  The handle Open returns for a path other than "." is
    the fresh handle: no kind is recorded on it, for a directory either.
    A later IsDir therefore answers false without a store call when the
    name has an extension, and otherwise probes the store again, with the
    exact-key query and, if that is negative, the one-page listing; it
    answers true when the store then shows no exact key and a non-empty
    listing. *)
Theorem Open_records_no_kind
    (b : blobFS) (nm : string) (w : World W) (h : blobFile) :
  nm <> "." ->
  fst (Open B b nm w) = Opened h ->
  h = newBlobFile b nm
  /\ isDir h = false
  /\ (forall w', GoStrings.Ext nm <> "" -> IsDir B h w' = (false, w'))
  /\ (forall w', GoStrings.Ext nm = "" ->
        fst (probeExists B nm w') = true ->
        IsDir B h w' = (false, afterExists B nm w'))
  /\ (forall w', GoStrings.Ext nm = "" ->
        fst (probeExists B nm w') = false ->
        IsDir B h w' =
          (0 <? Z.of_nat (length (fst (probeList B nm w'))),
           afterList B nm w')).
Proof.
  intros Hnm Ho. pose proof (Open_handle b nm w h Hnm Ho) as ->.
  split; [reflexivity|]. split; [reflexivity|].
  assert (HI : forall w', IsDir B (newBlobFile b nm) w' = _)
    by (intros w'; apply (IsDir_unrecorded (newBlobFile b nm) w');
        [reflexivity | exact Hnm]).
  change (name (newBlobFile b nm)) with nm in HI.
  repeat split; intros w' Hext; rewrite HI.
  - destruct (String.eqb_spec (GoStrings.Ext nm) ""); [contradiction|].
    reflexivity.
  - intros He. rewrite Hext, He. reflexivity.
  - intros He. rewrite Hext, He. reflexivity.
Qed.

End KindProperties.

(** Open_records_no_kind at the directory "baz" of the test bucket. *)
Lemma Open_records_no_kind_witness :
  "baz" <> "." /\
  fst (Open fooBarBaz testFS "baz" world0) = Opened (newBlobFile testFS "baz") /\
  IsDir fooBarBaz (newBlobFile testFS "baz") (snd (Open fooBarBaz testFS "baz" world0))
  = (true,
     mkWorld tt [CExists "baz"; CListPage "baz" "/" 1;
                 CExists "baz"; CListPage "baz" "/" 1]%list).
Proof.
  assert (Hnm : "baz" <> ".") by discriminate.
  assert (Ho : fst (Open fooBarBaz testFS "baz" world0)
               = Opened (newBlobFile testFS "baz")) by reflexivity.
  split; [exact Hnm|]. split; [exact Ho|].
  destruct (Open_records_no_kind fooBarBaz testFS "baz" world0 _ Hnm Ho)
    as (_ & _ & _ & _ & Hd).
  exact (Hd (snd (Open fooBarBaz testFS "baz" world0)) eq_refl eq_refl).
Defined.

(** C8, as stated, fails: Open classifies "baz" as a directory (no exact
    key, a non-empty listing), the handle it returns has no kind recorded,
    and IsDir on that handle makes two more store calls. *)
Lemma Open_directory_IsDir_calls_store :
  probeExists fooBarBaz "baz" world0 = (false, None)
  /\ probeList fooBarBaz "baz" world0 = ([mkListObject "baz/" true]%list, None)
  /\ Open fooBarBaz testFS "baz" world0
     = (Opened (newBlobFile testFS "baz"),
        mkWorld tt [CExists "baz"; CListPage "baz" "/" 1]%list)
  /\ isDir (newBlobFile testFS "baz") = false
  /\ IsDir fooBarBaz (newBlobFile testFS "baz")
           (mkWorld tt [CExists "baz"; CListPage "baz" "/" 1]%list)
     = (true,
        mkWorld tt [CExists "baz"; CListPage "baz" "/" 1;
                    CExists "baz"; CListPage "baz" "/" 1]%list).
Proof.
  repeat split.
Qed.

(** ** Properties of Read and Seek *)

Lemma wrap64_small (z : Z) : int64_range z -> wrap64 z = z.
Proof.
  unfold int64_range, wrap64, maxInt64. intros H.
  rewrite Z.mod_small; lia.
Qed.

Lemma set_offset_same (b : blobFile) : set_offset b (offset b) = b.
Proof. destruct b; reflexivity. Qed.

Section ReadSeekProperties.

Context {W : Type}.
Variable B : Bucket W.

(** Within the content, slicing succeeds. *)
Lemma slice_from_in_bounds (c : Bytes) (off : Z) :
  0 <= off <= len c ->
  exists src, slice_from c off = Some src /\
              Z.of_nat (length src) = len c - off.
Proof.
  intros H. unfold slice_from.
  destruct (Z.ltb_spec off 0); [lia|].
  destruct (Z.ltb_spec (len c) off); [lia|]. cbn.
  eexists. split; [reflexivity|].
  rewrite length_skipn. destruct c as [l|]; cbn in *; lia.
Qed.

(** The copy step of [Read] from an offset within the content: no panic,
    and the offset stays within the content. *)
Lemma Read_copy_in_bounds (b : blobFile) (dst : list Byte.byte) :
  offset_in_bounds b ->
  exists src n dst',
    slice_from (contents b) (offset b) = Some src /\
    copy dst src = (n, dst') /\
    0 <= n <= len (contents b) - offset b /\
    wrap64 (offset b + n) = offset b + n.
Proof.
  intros [Hoff Hlen].
  destruct (slice_from_in_bounds (contents b) (offset b) Hoff)
    as (src & Hs & Hl).
  exists src, (Z.of_nat (Nat.min (length dst) (length src))),
    (firstn (Nat.min (length dst) (length src)) src
     ++ skipn (Nat.min (length dst) (length src)) dst)%list.
  split; [exact Hs|]. split; [reflexivity|].
  assert (Hn : 0 <= Z.of_nat (Nat.min (length dst) (length src))
               <= len (contents b) - offset b) by lia.
  split; [exact Hn|].
  apply wrap64_small. unfold int64_range, maxInt64 in *. lia.
Qed.

(** One [Read] keeps the offset within the content and does not panic. *)
Lemma Read_keeps_bounds (b : blobFile) (buf : Bytes) (w : World W) :
  bounded_objects B ->
  offset_in_bounds b ->
  offset_in_bounds (fst (fst (Read B b buf w))) /\
  snd (fst (Read B b buf w)) <> ReadPanic.
Proof.
  intros HB Hb. destruct buf as [dst|]; [|split; [exact Hb | discriminate]].
  assert (Hstep : forall b1 (w1 : World W),
             offset_in_bounds b1 ->
             let r := match slice_from (contents b1) (offset b1) with
                      | None => ret (b1, ReadPanic)
                      | Some src =>
                          let (n, dst') := copy dst src in
                          let b2 := set_offset b1 (wrap64 (offset b1 + n)) in
                          if n =? 0
                          then ret (b2, ReadRet n (Some dst') (Some EOF))
                          else ret (b2, ReadRet n (Some dst') None)
                      end w1 in
             offset_in_bounds (fst (fst r)) /\ snd (fst r) <> ReadPanic).
  { intros b1 w1 Hb1.
    destruct (Read_copy_in_bounds b1 dst Hb1)
      as (src & n & dst' & Hs & Hc & Hn & Hw).
    cbv zeta. rewrite Hs, Hc, Hw.
    destruct Hb1 as [Ho Hl].
    destruct (n =? 0); cbn; (split; [|discriminate]);
      unfold offset_in_bounds, maxInt64 in *; cbn; lia. }
  unfold Read, bind.
  destruct (contents b) as [c|] eqn:Ec.
  - exact (Hstep b w Hb).
  - unfold ReadAll, ret. specialize (HB (name b) (store w)).
    destruct (bkReadAll B (name b) (store w)) as [[c' e] s1]; cbn in HB.
    assert (Hb1 : offset_in_bounds (set_contents b c')).
    { destruct Hb as [Ho Hl]. rewrite Ec in Ho. cbn in Ho.
      unfold offset_in_bounds; cbn. destruct c'; cbn in *; lia. }
    destruct e as [e|].
    + cbn. split; [exact Hb1 | discriminate].
    + exact (Hstep (set_contents b c') _ Hb1).
Qed.

(** At the end of the fetched content a [Read] into a non-nil buffer
    copies nothing and reports the end of the stream. *)
Lemma Read_at_end (b : blobFile) (dst : list Byte.byte) (w : World W) :
  contents b <> None ->
  offset b = len (contents b) ->
  len (contents b) <= maxInt64 ->
  Read B b (Some dst) w = ((b, ReadRet 0 (Some dst) (Some EOF)), w).
Proof.
  intros Hc Ho Hl.
  assert (Hs : slice_from (contents b) (offset b) = Some []%list).
  { unfold slice_from. rewrite Ho.
    destruct (Z.ltb_spec (len (contents b)) 0);
      [destruct (contents b); cbn in *; lia|].
    rewrite Z.ltb_irrefl. cbn.
    destruct (contents b) as [c|]; [|contradiction]. cbn.
    now rewrite Nat2Z.id, skipn_all. }
  assert (Hw : wrap64 (offset b + 0) = offset b).
  { rewrite Z.add_0_r. apply wrap64_small.
    unfold int64_range, maxInt64 in *.
    destruct (contents b); cbn in *; lia. }
  unfold Read, bind.
  destruct (contents b) as [c|] eqn:Ec; [|contradiction].
  unfold ret at 1. cbv beta iota. rewrite Ec, Hs.
  unfold copy. rewrite Nat.min_0_r. cbn [Z.of_nat firstn skipn app].
  rewrite Hw, set_offset_same. reflexivity.
Qed.

(** [Seek] by case of the anchor. *)
Lemma Seek_start (b : blobFile) (off : Z) (w : World W) :
  Seek B b off SeekStart w = ((set_offset b off, (off, None)), w).
Proof. reflexivity. Qed.

Lemma Seek_current (b : blobFile) (off : Z) (w : World W) :
  Seek B b off SeekCurrent w
  = ((set_offset b (wrap64 (offset b + off)),
      (wrap64 (offset b + off), None)), w).
Proof. reflexivity. Qed.

Lemma Seek_end (b : blobFile) (off : Z) (w : World W) :
  Seek B b off SeekEnd w
  = ((set_offset (fst (fst (Size B b w)))
                 (wrap64 (snd (fst (Size B b w)) + off)),
      (wrap64 (snd (fst (Size B b w)) + off), None)),
     snd (Size B b w)).
Proof.
  unfold Seek. cbn. unfold bind.
  destruct (Size B b w) as [[b1 sz] w1]. reflexivity.
Qed.

Lemma Seek_other (b : blobFile) (off whence : Z) (w : World W) :
  whence <> SeekStart -> whence <> SeekCurrent -> whence <> SeekEnd ->
  Seek B b off whence w = ((b, (0, Some (ErrorsNew "invalid whence"))), w).
Proof.
  intros H0 H1 H2. unfold Seek.
  destruct (Z.eqb_spec whence SeekStart); [contradiction|].
  destruct (Z.eqb_spec whence SeekCurrent); [contradiction|].
  destruct (Z.eqb_spec whence SeekEnd); [contradiction|].
  reflexivity.
Qed.

(** C2 (amended).  Read keeps the offset within the content: from a handle
    whose offset is within the content it holds (a fresh handle is such a
    handle), after any run of Read calls the offset is still within the
    content, and none of the calls panics.  A Read into a non-nil buffer
    issued when the offset equals the length of the fetched content
    returns zero bytes and the end-of-stream sentinel.  Seek checks no
    bound: the start anchor stores whatever offset it is given. *)
Theorem Read_keeps_offset_in_bounds
    (b : blobFile) (bufs : list Bytes) (w : World W) :
  bounded_objects B ->
  offset_in_bounds b ->
  offset_in_bounds (fst (fst (Reads B bufs b w)))
  /\ Forall (fun r => r <> ReadPanic) (snd (fst (Reads B bufs b w)))
  /\ (forall dst w',
        contents b <> None -> offset b = len (contents b) ->
        Read B b (Some dst) w' = ((b, ReadRet 0 (Some dst) (Some EOF)), w'))
  /\ (forall off w',
        Seek B b off SeekStart w' = ((set_offset b off, (off, None)), w')).
Proof.
  intros HB Hb. split; [|split; [|split]].
  - revert b w Hb. induction bufs as [|buf bufs IH]; intros b w Hb; cbn.
    + exact Hb.
    + unfold bind.
      pose proof (Read_keeps_bounds b buf w HB Hb) as [H1 _].
      destruct (Read B b buf w) as [[b1 r] w1]. cbn in H1.
      specialize (IH b1 w1 H1).
      destruct (Reads B bufs b1 w1) as [[b2 rs] w2]. exact IH.
  - revert b w Hb. induction bufs as [|buf bufs IH]; intros b w Hb; cbn.
    + constructor.
    + unfold bind.
      pose proof (Read_keeps_bounds b buf w HB Hb) as [H1 H2].
      destruct (Read B b buf w) as [[b1 r] w1]. cbn in H1, H2.
      specialize (IH b1 w1 H1).
      destruct (Reads B bufs b1 w1) as [[b2 rs] w2]. cbn in *.
      constructor; assumption.
  - intros dst w' Hc Ho. apply Read_at_end; [exact Hc | exact Ho |].
    exact (proj2 Hb).
  - intros off w'. apply Seek_start.
Qed.

(** C7 (amended).  A Seek with an unrecognised anchor fails with the
    error "invalid whence", returns offset 0 and leaves the handle as it
    was.  A Seek with the start, current or end anchor checks no sign: it
    stores the recomputed offset and returns it with a nil error,
    whatever its value. *)
Theorem Seek_by_anchor (b : blobFile) (off whence : Z) (w : World W) :
  (whence <> SeekStart -> whence <> SeekCurrent -> whence <> SeekEnd ->
   Seek B b off whence w = ((b, (0, Some (ErrorsNew "invalid whence"))), w))
  /\ Seek B b off SeekStart w = ((set_offset b off, (off, None)), w)
  /\ Seek B b off SeekCurrent w
     = ((set_offset b (wrap64 (offset b + off)),
         (wrap64 (offset b + off), None)), w)
  /\ Seek B b off SeekEnd w
     = ((set_offset (fst (fst (Size B b w)))
                    (wrap64 (snd (fst (Size B b w)) + off)),
         (wrap64 (snd (fst (Size B b w)) + off), None)),
        snd (Size B b w)).
Proof.
  split; [apply Seek_other|].
  split; [apply Seek_start|].
  split; [apply Seek_current | apply Seek_end].
Qed.


End ReadSeekProperties.

(** The test bucket hands out slices of five bytes. *)
Lemma fooBarBaz_bounded : bounded_objects fooBarBaz.
Proof.
  intros key s. unfold fooBarBaz, MemBucket.bucket, MemBucket.find; simpl.
  repeat match goal with
         | |- context [if ?c then _ else _] => destruct c
         end; simpl; unfold maxInt64; lia.
Defined.

(** Read_keeps_offset_in_bounds on a fresh handle of "foo", read to its end
    through buffers of two bytes. *)
Lemma Read_keeps_offset_in_bounds_witness :
  bounded_objects fooBarBaz /\
  offset_in_bounds (newBlobFile testFS "foo") /\
  offset_in_bounds
    (fst (fst (Reads fooBarBaz
                 [Some [Byte.x00; Byte.x00]; Some [Byte.x00; Byte.x00];
                  Some [Byte.x00; Byte.x00]; Some [Byte.x00; Byte.x00]]%list
                 (newBlobFile testFS "foo") world0))).
Proof.
  assert (Hb : offset_in_bounds (newBlobFile testFS "foo"))
    by (unfold offset_in_bounds, maxInt64; simpl; lia).
  split; [exact fooBarBaz_bounded|]. split; [exact Hb|].
  exact (proj1 (Read_keeps_offset_in_bounds fooBarBaz
                  (newBlobFile testFS "foo") _ world0 fooBarBaz_bounded Hb)).
Defined.

(** C2, as stated, fails: on a handle holding the five bytes of "foo", a
    Seek to offset 6 from the start succeeds and leaves the offset beyond
    the content, and the Read that follows panics on the slice bound. *)
Lemma Seek_past_end_then_Read_panics :
  Read fooBarBaz (newBlobFile testFS "foo") (Some [Byte.x00]%list) world0
  = ((fooAt 1, ReadRet 1 (Some [Byte.x68]%list) None),
     mkWorld tt [CReadAll "foo"]%list)
  /\ Seek fooBarBaz (fooAt 1) 6 SeekStart (mkWorld tt [CReadAll "foo"]%list)
     = ((fooAt 6, (6, None)), mkWorld tt [CReadAll "foo"]%list)
  /\ offset (fooAt 6) = 6
  /\ len (contents (fooAt 6)) = 5
  /\ ~ offset_in_bounds (fooAt 6)
  /\ Read fooBarBaz (fooAt 6) (Some [Byte.x00]%list)
          (mkWorld tt [CReadAll "foo"]%list)
     = ((fooAt 6, ReadPanic), mkWorld tt [CReadAll "foo"]%list).
Proof.
  repeat split.
  unfold offset_in_bounds; simpl. lia.
Qed.

(** Seek_by_anchor at the anchor 3, which is none of the three. *)
Lemma Seek_by_anchor_witness :
  3 <> SeekStart /\ 3 <> SeekCurrent /\ 3 <> SeekEnd /\
  Seek fooBarBaz (newBlobFile testFS "foo") 0 3 world0
  = ((newBlobFile testFS "foo", (0, Some (ErrorsNew "invalid whence"))),
     world0).
Proof.
  assert (H0 : 3 <> SeekStart) by discriminate.
  assert (H1 : 3 <> SeekCurrent) by discriminate.
  assert (H2 : 3 <> SeekEnd) by discriminate.
  repeat (split; [assumption|]).
  exact (proj1 (Seek_by_anchor fooBarBaz (newBlobFile testFS "foo") 0 3 world0)
               H0 H1 H2).
Defined.

(** C7, as stated, fails: a Seek from the start to offset -1 is accepted;
    it stores -1 and returns it with a nil error. *)
Lemma Seek_negative_is_accepted :
  Seek fooBarBaz (newBlobFile testFS "foo") (-1) SeekStart world0
  = ((set_offset (newBlobFile testFS "foo") (-1), (-1, None)), world0).
Proof.
  reflexivity.
Qed.



(** ** Properties of ReadDir *)

Section ReadDirProperties.

Context {W : Type}.
Variable B : Bucket W.

(** The loop, read off the outcome of [Next]. *)
Lemma readDirLoop_Next (bfs : blobFS) (n : Z) (it : ListIterator)
    (results : list blobFile) :
  readDirLoop bfs n it results =
    match Next it with
    | ((_, Some e), rest) =>
        (rest, if is_EOF e && (n <? 0) then (results, None)
               else (results, Some e))
    | ((Some o, None), rest) =>
        if (0 <? n) && (n <=? Z.of_nat (length (results ++ [dirEntry bfs o])))
        then (rest, ((results ++ [dirEntry bfs o])%list, None))
        else readDirLoop bfs n rest (results ++ [dirEntry bfs o])
    | ((None, None), rest) => (rest, (results, None))
    end.
Proof.
  destruct it as [|[o|e] rest]; reflexivity.
Qed.



End ReadDirProperties.

(** C3.  At the failing input [n = 0]: ReadDir on the root of the test
    bucket returns the three entries of the listing, and with them the
    error [io.EOF], where the specification asks for a nil error.  The test that
    turns exhaustion into a nil error is [n < 0]. *)
Theorem ReadDir_zero_returns_EOF :
  snd (fst (ReadDir fooBarBaz (newBlobFile testFS "") 0 world0))
  = ([dirEntry testFS (mkListObject "bar" false);
      dirEntry testFS (mkListObject "baz/" true);
      dirEntry testFS (mkListObject "foo" false)]%list,
     Some EOF)
  /\ snd (fst (ReadDir fooBarBaz (newBlobFile testFS "") (-1) world0))
     = ([dirEntry testFS (mkListObject "bar" false);
         dirEntry testFS (mkListObject "baz/" true);
         dirEntry testFS (mkListObject "foo" false)]%list,
        None).
Proof.
  split; reflexivity.
Qed.

(** ** Reading the content through *)

Lemma firstn_plus {A : Type} (a t : nat) (l : list A) :
  firstn (a + t) l = (firstn a l ++ firstn t (skipn a l))%list.
Proof.
  revert l. induction a as [|a IH]; intros l; [reflexivity|].
  destruct l as [|x l]; cbn.
  - now rewrite firstn_nil.
  - now rewrite IH.
Qed.

Lemma set_contents_same (b : blobFile) : set_contents b (contents b) = b.
Proof. destruct b; reflexivity. Qed.

Section ReadThrough.

Context {W : Type}.
Variable B : Bucket W.

(** [Read] into a non-nil buffer from a handle that holds its content, the
    offset being within it: the copy, spelled out. *)
Lemma Read_held (b : blobFile) (c dst : list Byte.byte) (w : World W) :
  contents b = Some c ->
  0 <= offset b <= Z.of_nat (length c) ->
  Z.of_nat (length c) <= maxInt64 ->
  Read B b (Some dst) w =
    ((set_offset b
        (offset b +
         Z.of_nat (Nat.min (length dst)
                           (length (skipn (Z.to_nat (offset b)) c)))),
      ReadRet
        (Z.of_nat (Nat.min (length dst)
                           (length (skipn (Z.to_nat (offset b)) c))))
        (Some (firstn (Nat.min (length dst)
                               (length (skipn (Z.to_nat (offset b)) c)))
                      (skipn (Z.to_nat (offset b)) c)
               ++ skipn (Nat.min (length dst)
                                 (length (skipn (Z.to_nat (offset b)) c)))
                        dst)%list)
        (if Z.of_nat (Nat.min (length dst)
                              (length (skipn (Z.to_nat (offset b)) c))) =? 0
         then Some EOF else None)),
     w).
Proof.
  intros Hc Ho Hl. unfold Read, bind. rewrite Hc.
  unfold ret at 1. cbv beta iota. rewrite Hc.
  unfold slice_from, len.
  destruct (Z.ltb_spec (offset b) 0); [lia|].
  destruct (Z.ltb_spec (Z.of_nat (length c)) (offset b)); [lia|].
  cbn [orb]. unfold copy.
  set (k := Nat.min (length dst) (length (skipn (Z.to_nat (offset b)) c))).
  assert (Hk : Z.of_nat k <= Z.of_nat (length c) - offset b)
    by (subst k; rewrite length_skipn; lia).
  rewrite wrap64_small by (unfold int64_range, maxInt64 in *; lia).
  destruct (Z.of_nat k =? 0); reflexivity.
Qed.

(** A run of [Read] calls on a handle that holds its content: where it
    ends and what it delivers do not depend on the world, and the world is
    left as it was. *)
Lemma Reads_held (bufs : list Bytes) (b : blobFile) (c : list Byte.byte) :
  contents b = Some c ->
  offset_in_bounds b ->
  exists b' rs,
    (forall w : World W, Reads B bufs b w = ((b', rs), w))
    /\ concat (List.map delivered rs)
       = firstn (capacity bufs) (skipn (Z.to_nat (offset b)) c)
    /\ offset b'
       = offset b
         + Z.of_nat (Nat.min (capacity bufs)
                             (length c - Z.to_nat (offset b)))
    /\ contents b' = Some c.
Proof.
  revert b. induction bufs as [|buf bufs IH]; intros b Hc [Ho Hl].
  - exists b, []%list. cbn. repeat split; try assumption. lia.
  - rewrite Hc in Ho, Hl. cbn [len] in Ho, Hl.
    destruct buf as [dst|].
    + set (src := skipn (Z.to_nat (offset b)) c).
      set (k := Nat.min (length dst) (length src)).
      assert (Hsrc : length src = (length c - Z.to_nat (offset b))%nat)
        by (subst src; apply length_skipn).
      assert (Hk : (k <= length dst /\ k <= length src)%nat)
        by (unfold k; lia).
      set (b1 := set_offset b (offset b + Z.of_nat k)).
      assert (Hb1 : offset_in_bounds b1).
      { unfold offset_in_bounds, b1; cbn [offset contents set_offset].
        rewrite Hc. cbn [len]. lia. }
      destruct (IH b1 Hc Hb1) as (b' & rs & Hrun & Hd & Hoff & Hc').
      exists b',
        (ReadRet (Z.of_nat k) (Some (firstn k src ++ skipn k dst)%list)
                 (if Z.of_nat k =? 0 then Some EOF else None) :: rs)%list.
      split; [|split; [|split]].
      * intros w. cbn [Reads]. unfold bind.
        rewrite (Read_held b c dst w Hc Ho Hl). fold src k b1.
        rewrite Hrun. reflexivity.
      * cbn [List.map concat delivered capacity fold_right len].
        rewrite Hd, !Nat2Z.id. fold (capacity bufs).
        assert (Hf : firstn k (firstn k src ++ skipn k dst) = firstn k src).
        { rewrite firstn_app, length_firstn.
          replace (k - Nat.min k (length src))%nat with 0%nat by lia.
          rewrite firstn_firstn, Nat.min_id. cbn. apply app_nil_r. }
        rewrite Hf.
        replace (Z.to_nat (offset b1)) with (k + Z.to_nat (offset b))%nat
          by (unfold b1; cbn; lia).
        rewrite <- skipn_skipn. fold src.
        destruct (Nat.le_gt_cases (length dst) (length src)) as [Hle|Hgt].
        -- replace k with (length dst) by lia. symmetry. apply firstn_plus.
        -- replace k with (length src) by lia.
           rewrite firstn_all, skipn_all, firstn_nil, app_nil_r.
           symmetry. apply firstn_all2. lia.
      * rewrite Hoff. unfold b1; cbn [offset set_offset].
        cbn [capacity fold_right len]. fold (capacity bufs).
        rewrite Nat2Z.id. lia.
      * exact Hc'.
    + assert (Hb : offset_in_bounds b)
        by (unfold offset_in_bounds; rewrite Hc; cbn [len]; lia).
      destruct (IH b Hc Hb) as (b' & rs & Hrun & Hd & Hoff & Hc').
      exists b', (ReadRet 0 None None :: rs)%list.
      split; [|split; [|split]].
      * intros w. cbn [Reads]. unfold bind. cbn. rewrite Hrun. reflexivity.
      * cbn. exact Hd.
      * cbn. exact Hoff.
      * exact Hc'.
Qed.

(** X1.  Reading through: on a handle that holds its content [c], with the
    offset within it, the bytes delivered by any run of Read calls, put
    end to end, are the content from the offset on, as far as the buffers
    have room; the offset advances by the number of bytes delivered, the
    content stays, and the store is not called. *)
Theorem Reads_deliver_content
    (bufs : list Bytes) (b : blobFile) (c : list Byte.byte) (w : World W) :
  contents b = Some c ->
  offset_in_bounds b ->
  concat (List.map delivered (snd (fst (Reads B bufs b w))))
  = firstn (capacity bufs) (skipn (Z.to_nat (offset b)) c)
  /\ offset (fst (fst (Reads B bufs b w)))
     = offset b
       + Z.of_nat (Nat.min (capacity bufs) (length c - Z.to_nat (offset b)))
  /\ contents (fst (fst (Reads B bufs b w))) = Some c
  /\ snd (Reads B bufs b w) = w.
Proof.
  intros Hc Hb.
  destruct (Reads_held bufs b c Hc Hb) as (b' & rs & Hrun & Hd & Hoff & Hc').
  rewrite Hrun. cbn. repeat split; assumption.
Qed.

(** The first [Read] into a non-nil buffer on a handle without content
    asks the store once and goes on as if the handle had held the answer. *)
Lemma Read_fetch (b : blobFile) (c' : Bytes) (s1 : W)
    (dst : list Byte.byte) (w : World W) :
  contents b = None ->
  bkReadAll B (name b) (store w) = ((c', None), s1) ->
  c' <> None ->
  Read B b (Some dst) w =
    (fst (Read B (set_contents b c') (Some dst) w),
     mkWorld s1 (calls w ++ [CReadAll (name b)])%list).
Proof.
  intros Hc HR Hc'. destruct c' as [c|]; [|contradiction].
  unfold Read, bind, ReadAll, ret. rewrite Hc, HR. cbn.
  destruct (slice_from (Some c) (offset b)) as [src|]; [|reflexivity].
  unfold copy.
  match goal with |- context [if ?t then _ else _] => destruct t end;
    reflexivity.
Qed.

(** X2.  The content is fetched once: on a handle without content, when
    the store answers the fetch with [c] and no error, a run of Read calls
    that starts with a non-nil buffer makes one store call, the fetch,
    keeps [c] on the handle, and delivers [c] from the offset on, as far
    as the buffers have room. *)
Theorem Reads_fetch_once
    (dst : list Byte.byte) (bufs : list Bytes) (b : blobFile)
    (c : list Byte.byte) (w : World W) :
  contents b = None ->
  fst (bkReadAll B (name b) (store w)) = (Some c, None) ->
  0 <= offset b <= Z.of_nat (length c) ->
  Z.of_nat (length c) <= maxInt64 ->
  concat (List.map delivered (snd (fst (Reads B (Some dst :: bufs) b w))))
  = firstn (length dst + capacity bufs) (skipn (Z.to_nat (offset b)) c)
  /\ contents (fst (fst (Reads B (Some dst :: bufs) b w))) = Some c
  /\ snd (Reads B (Some dst :: bufs) b w)
     = mkWorld (snd (bkReadAll B (name b) (store w)))
               (calls w ++ [CReadAll (name b)])%list.
Proof.
  intros Hc HR Ho Hl.
  destruct (bkReadAll B (name b) (store w)) as [[c0 e0] s1] eqn:ER.
  cbn in HR. inversion HR; subst c0 e0. cbn [snd].
  assert (Hb1 : offset_in_bounds (set_contents b (Some c)))
    by (unfold offset_in_bounds; cbn [contents offset set_contents len]; lia).
  destruct (Reads_held (Some dst :: bufs) (set_contents b (Some c)) c
              eq_refl Hb1) as (b' & rs & Hrun & Hd & _ & Hc').
  assert (HE : Reads B (Some dst :: bufs) b w
               = ((b', rs), mkWorld s1 (calls w ++ [CReadAll (name b)])%list)).
  { specialize (Hrun (mkWorld s1 (calls w ++ [CReadAll (name b)])%list)).
    cbn [Reads] in Hrun |- *. unfold bind in Hrun |- *.
    rewrite (Read_fetch b (Some c) s1 dst w Hc ER) by discriminate.
    pose proof (fun w0 : World W =>
                  Read_held (set_contents b (Some c)) c dst w0 eq_refl Ho Hl)
      as HRh.
    rewrite (HRh w). rewrite (HRh _) in Hrun. exact Hrun. }
  rewrite HE. cbn [fst snd].
  split; [|split; [exact Hc' | reflexivity]].
  rewrite Hd. cbn [capacity fold_right len]. fold (capacity bufs).
  now rewrite Nat2Z.id.
Qed.

(** X3.  A fetch that fails: on a handle without content, when the store
    answers the fetch with an error, Read returns zero bytes and that
    error, leaves the buffer and the offset as they were, and puts on the
    handle whatever data came with the error.  When none came the handle
    is unchanged, and since every Read into a non-nil buffer on a handle
    without content calls the store exactly once, the next Read tries the
    fetch again.  When data came it stays as the content of the handle:
    the next Read does not call the store, it serves from the data that
    came with the error, without an error as long as it copies a byte. *)
Theorem Read_fetch_error
    (b : blobFile) (c' : Bytes) (e : error) (dst : list Byte.byte)
    (w : World W) :
  contents b = None ->
  fst (bkReadAll B (name b) (store w)) = (c', Some e) ->
  Read B b (Some dst) w
  = ((set_contents b c', ReadRet 0 (Some dst) (Some e)),
     mkWorld (snd (bkReadAll B (name b) (store w)))
             (calls w ++ [CReadAll (name b)])%list)
  /\ (c' = None ->
      fst (fst (Read B b (Some dst) w)) = b /\
      forall dst' w',
        calls (snd (Read B (fst (fst (Read B b (Some dst) w))) (Some dst') w'))
        = (calls w' ++ [CReadAll (name b)])%list)
  /\ (forall d,
        c' = Some d ->
        0 <= offset b <= Z.of_nat (length d) ->
        Z.of_nat (length d) <= maxInt64 ->
        forall dst' w',
          exists n buf',
            Read B (fst (fst (Read B b (Some dst) w))) (Some dst') w'
            = ((set_offset (set_contents b (Some d)) (offset b + n),
                ReadRet n (Some buf') (if n =? 0 then Some EOF else None)),
               w')
            /\ n = Z.of_nat (Nat.min (length dst')
                                     (length d - Z.to_nat (offset b)))
            /\ firstn (Z.to_nat n) buf'
               = firstn (length dst') (skipn (Z.to_nat (offset b)) d))
  /\ (forall dst' w',
        calls (snd (Read B b (Some dst') w'))
        = (calls w' ++ [CReadAll (name b)])%list).
Proof.
  intros Hc HR.
  assert (H1 : Read B b (Some dst) w
               = ((set_contents b c', ReadRet 0 (Some dst) (Some e)),
                  mkWorld (snd (bkReadAll B (name b) (store w)))
                          (calls w ++ [CReadAll (name b)])%list)).
  { unfold Read, bind, ReadAll, ret. rewrite Hc.
    destruct (bkReadAll B (name b) (store w)) as [[c0 e0] s1].
    cbn in HR. inversion HR; subst. reflexivity. }
  assert (H4 : forall dst' w',
             calls (snd (Read B b (Some dst') w'))
             = (calls w' ++ [CReadAll (name b)])%list).
  { intros dst' w'. unfold Read, bind, ReadAll, ret. rewrite Hc.
    destruct (bkReadAll B (name b) (store w')) as [[c0 e0] s1].
    destruct e0 as [e0|]; [reflexivity|]. cbn.
    destruct (slice_from c0 (offset b)) as [src|]; [|reflexivity].
    unfold copy.
    match goal with |- context [if ?t then _ else _] => destruct t end;
      reflexivity. }
  split; [exact H1|]. split; [|split; [|exact H4]].
  - intros ->.
    assert (Hb : fst (fst (Read B b (Some dst) w)) = b)
      by (rewrite H1; cbn; rewrite <- Hc; apply set_contents_same).
    split; [exact Hb|]. intros dst' w'. rewrite Hb. apply H4.
  - intros d -> Ho Hl dst' w'. rewrite H1. cbn [fst].
    rewrite (Read_held (set_contents b (Some d)) d dst' w' eq_refl Ho Hl).
    cbn [offset set_contents].
    set (src := skipn (Z.to_nat (offset b)) d).
    set (k := Nat.min (length dst') (length src)).
    assert (Hsrc : length src = (length d - Z.to_nat (offset b))%nat)
      by (subst src; apply length_skipn).
    exists (Z.of_nat k), (firstn k src ++ skipn k dst')%list.
    split; [reflexivity|]. split; [subst k; now rewrite Hsrc|].
    rewrite Nat2Z.id, firstn_app, length_firstn.
    replace (k - Nat.min k (length src))%nat with 0%nat by lia.
    rewrite firstn_firstn, Nat.min_id. cbn. rewrite app_nil_r.
    destruct (Nat.le_gt_cases (length dst') (length src)).
    + now replace k with (length dst') by lia.
    + replace k with (length src) by lia.
      rewrite firstn_all. symmetry. apply firstn_all2. lia.
Qed.

(** X4.  Seek from the start, then Read: on a handle that holds its
    content [c], after a Seek to [v] from the start with [0 <= v <= len c],
    whatever the offset was before, Read delivers the bytes of [c] from
    [v] on, as many as the buffer takes, returns the end-of-stream error
    exactly when it delivers none, and calls the store not at all. *)
Theorem Seek_start_then_Read
    (b : blobFile) (c dst : list Byte.byte) (v : Z) (w : World W) :
  contents b = Some c ->
  0 <= v <= Z.of_nat (length c) ->
  Z.of_nat (length c) <= maxInt64 ->
  exists n buf',
    Read B (fst (fst (Seek B b v SeekStart w))) (Some dst)
         (snd (Seek B b v SeekStart w))
    = ((set_offset b (v + n),
        ReadRet n (Some buf') (if n =? 0 then Some EOF else None)), w)
    /\ n = Z.of_nat (Nat.min (length dst) (length c - Z.to_nat v))
    /\ firstn (Z.to_nat n) buf' = firstn (length dst) (skipn (Z.to_nat v) c).
Proof.
  intros Hc Hv Hl. rewrite Seek_start. cbn [fst snd].
  rewrite (Read_held (set_offset b v) c dst w Hc Hv Hl).
  cbn [offset set_offset].
  set (src := skipn (Z.to_nat v) c).
  set (k := Nat.min (length dst) (length src)).
  assert (Hsrc : length src = (length c - Z.to_nat v)%nat)
    by (subst src; apply length_skipn).
  exists (Z.of_nat k), (firstn k src ++ skipn k dst)%list.
  split; [reflexivity|]. split; [subst k; now rewrite Hsrc|].
  rewrite Nat2Z.id, firstn_app, length_firstn.
  replace (k - Nat.min k (length src))%nat with 0%nat by lia.
  rewrite firstn_firstn, Nat.min_id. cbn. rewrite app_nil_r.
  destruct (Nat.le_gt_cases (length dst) (length src)).
  - now replace k with (length dst) by lia.
  - replace k with (length src) by lia.
    rewrite firstn_all. symmetry. apply firstn_all2. lia.
Qed.

End ReadThrough.

(** ** Seeking *)

Lemma wrap64_add_l (x y : Z) : wrap64 (wrap64 x + y) = wrap64 (x + y).
Proof.
  unfold wrap64. f_equal.
  replace ((x + 2 ^ 63) mod 2 ^ 64 - 2 ^ 63 + y + 2 ^ 63)
    with ((x + 2 ^ 63) mod 2 ^ 64 + y) by lia.
  rewrite Zplus_mod_idemp_l. f_equal. lia.
Qed.

Section SeekProperties.

Context {W : Type}.
Variable B : Bucket W.

(** [getAttrs] assigns no field but [attrs]. *)
Lemma getAttrs_frame (b : blobFile) (w : World W) :
  fst (fst (getAttrs B b w))
  = set_attrs b (attrs (fst (fst (getAttrs B b w)))).
Proof.
  destruct (attrs b) as [a|] eqn:Ea.
  - rewrite (getAttrs_cached B b a w Ea). cbn. rewrite Ea.
    rewrite <- Ea. symmetry. apply set_attrs_same.
  - unfold getAttrs, bind, Exists, GetAttributes, ret. rewrite Ea.
    destruct (bkExists B (name b) (store w)) as [[fe e1] s1]. cbn.
    destruct fe; cbn.
    + destruct (bkAttributes B (name b) s1) as [[oa e2] s2]. cbn.
      destruct oa; reflexivity.
    + rewrite Ea. cbn. rewrite Ea.
      rewrite <- Ea. symmetry. apply set_attrs_same.
Qed.

(** X5.  Seeks from the current position add up, in 64-bit arithmetic: a
    Seek by [x] followed by a Seek by [y], both from the current position,
    leave the handle at the wrapped sum of the old offset, [x] and [y], and
    return it; no store call is made.  A Seek by 0 from the current
    position returns the offset and changes nothing. *)
Theorem Seek_current_adds_up (b : blobFile) (x y : Z) (w : World W) :
  Seek B (fst (fst (Seek B b x SeekCurrent w))) y SeekCurrent
       (snd (Seek B b x SeekCurrent w))
  = ((set_offset b (wrap64 (offset b + x + y)),
      (wrap64 (offset b + x + y), None)), w)
  /\ (int64_range (offset b) ->
      Seek B b 0 SeekCurrent w = ((b, (offset b, None)), w)).
Proof.
  split.
  - rewrite (Seek_current B b x w). cbn [fst snd].
    rewrite Seek_current. cbn [offset set_offset].
    rewrite wrap64_add_l. reflexivity.
  - intros Hr. rewrite Seek_current, Z.add_0_r, (wrap64_small _ Hr).
    now rewrite set_offset_same.
Qed.

(** X6.  What Seek leaves alone: whatever the anchor, Seek changes neither
    the name, nor the content, nor the recorded kind, nor the directory
    iterator of the handle, so it never fetches the content.  With the
    start or the current anchor, or an unknown one, it leaves the
    attributes alone too and makes no store call.  With the end anchor on
    a handle that holds attributes it makes no store call either and moves
    to the held size plus the offset. *)
Theorem Seek_frame (b : blobFile) (off whence : Z) (w : World W) :
  name (fst (fst (Seek B b off whence w))) = name b
  /\ contents (fst (fst (Seek B b off whence w))) = contents b
  /\ isDir (fst (fst (Seek B b off whence w))) = isDir b
  /\ iter (fst (fst (Seek B b off whence w))) = iter b
  /\ (whence <> SeekEnd ->
      attrs (fst (fst (Seek B b off whence w))) = attrs b /\
      snd (Seek B b off whence w) = w)
  /\ (forall a, attrs b = Some a ->
        Seek B b off SeekEnd w
        = ((set_offset b (wrap64 (Size_ a + off)),
            (wrap64 (Size_ a + off), None)), w)).
Proof.
  assert (Hend : forall a, attrs b = Some a ->
                   Seek B b off SeekEnd w
                   = ((set_offset b (wrap64 (Size_ a + off)),
                       (wrap64 (Size_ a + off), None)), w)).
  { intros a Ha. rewrite Seek_end. unfold Size, bind.
    rewrite (getAttrs_cached B b a w Ha). reflexivity. }
  assert (H5 : name (fst (fst (Seek B b off whence w))) = name b
               /\ contents (fst (fst (Seek B b off whence w))) = contents b
               /\ isDir (fst (fst (Seek B b off whence w))) = isDir b
               /\ iter (fst (fst (Seek B b off whence w))) = iter b
               /\ (whence <> SeekEnd ->
                   attrs (fst (fst (Seek B b off whence w))) = attrs b /\
                   snd (Seek B b off whence w) = w)).
  { destruct (Z.eq_dec whence SeekStart) as [->|H0];
      [rewrite Seek_start; cbn; repeat split|].
    destruct (Z.eq_dec whence SeekCurrent) as [->|H1];
      [rewrite Seek_current; cbn; repeat split|].
    destruct (Z.eq_dec whence SeekEnd) as [->|H2];
      [|rewrite (Seek_other B b off whence w H0 H1 H2); cbn; repeat split].
    rewrite Seek_end. unfold Size, bind.
    pose proof (getAttrs_frame b w) as Hf.
    destruct (getAttrs B b w) as [[b1 a1] w1]. cbn in Hf |- *.
    rewrite Hf. cbn.
    repeat (split; [reflexivity|]). intros H; contradiction. }
  destruct H5 as (Hn & Hc & Hd & Hi & Ha).
  repeat (split; [assumption|]). exact Hend.
Qed.

End SeekProperties.

(** ** Attributes, Stat and the kind *)

Section StatProperties.

Context {W : Type}.
Variable B : Bucket W.

(** X7.  Size fetches lazily and keeps what it got: on a handle without
    attributes whose exact-key query answers true, Size makes two store
    calls, the exact-key query and the attribute query, puts on the handle
    whatever attributes the attribute query returned, whatever errors the
    two calls reported, and returns their size, or 0 when there are none.
    Once attributes are on the handle, Size and ModTime return their fields
    and call the store no more. *)
Theorem Size_fetches_lazily (b : blobFile) (w : World W) :
  attrs b = None ->
  fst (probeExists B (name b) w) = true ->
  Size B b w
  = ((set_attrs b (fst (probeAttributes B (name b) (afterExists B (name b) w))),
      match fst (probeAttributes B (name b) (afterExists B (name b) w)) with
      | Some a => Size_ a
      | None => 0
      end),
     mkWorld (snd (bkAttributes B (name b) (store (afterExists B (name b) w))))
             (calls w ++ [CExists (name b); CAttributes (name b)])%list)
  /\ (forall a w',
        fst (probeAttributes B (name b) (afterExists B (name b) w)) = Some a ->
        Size B (fst (fst (Size B b w))) w'
        = ((fst (fst (Size B b w)), Size_ a), w') /\
        ModTime B (fst (fst (Size B b w))) w'
        = ((fst (fst (Size B b w)), ModTime_ a), w')).
Proof.
  intros Ha He.
  assert (HS : Size B b w
               = ((set_attrs b (fst (probeAttributes B (name b)
                                       (afterExists B (name b) w))),
                   match fst (probeAttributes B (name b)
                                (afterExists B (name b) w)) with
                   | Some a => Size_ a
                   | None => 0
                   end),
                  mkWorld (snd (bkAttributes B (name b)
                                  (store (afterExists B (name b) w))))
                          (calls w ++ [CExists (name b);
                                       CAttributes (name b)])%list)).
  { unfold Size, getAttrs, bind, Exists, GetAttributes, ret,
      probeAttributes, afterExists. unfold probeExists in He. rewrite Ha.
    destruct (bkExists B (name b) (store w)) as [[fe e1] s1].
    cbn in He |- *. subst fe. cbn.
    destruct (bkAttributes B (name b) s1) as [[oa e2] s2]. cbn.
    rewrite <- app_assoc. destruct oa; reflexivity. }
  split; [exact HS|].
  intros a w' Hq. rewrite HS. cbn [fst]. rewrite Hq.
  unfold Size, ModTime, bind.
  rewrite (getAttrs_cached B (set_attrs b (Some a)) a w' eq_refl).
  split; reflexivity.
Qed.

(** [Stat] by case of the two answers. *)
Lemma Stat_unfold (b : blobFile) (w : World W) :
  Stat B b w =
    match snd (probeAttributes B (name b) w) with
    | None =>
        ((set_attrs b (fst (probeAttributes B (name b) w)), StatInfo None),
         afterAttributes B (name b) w)
    | Some _ =>
        (if Nat.eqb (length (fst (probeListPage B (name b)
                                    (afterAttributes B (name b) w)))) 0
         then (set_attrs b (fst (probeAttributes B (name b) w)),
               StatFailed (PathError "stat" (name b) ErrNotExist))
         else (set_isDir (set_attrs b (fst (probeAttributes B (name b) w))) true,
               StatInfo (snd (probeListPage B (name b)
                                (afterAttributes B (name b) w)))),
         afterListPage B (name b) (afterAttributes B (name b) w))
    end.
Proof.
  unfold Stat, bind, GetAttributes, ListPage, ret, probeAttributes,
    probeListPage, afterListPage, afterAttributes. cbn.
  destruct (bkAttributes B (name b) (store w)) as [[oa e] s1]. cbn.
  destruct e as [e|]; cbn; [|reflexivity].
  destruct (bkListPage B (name b) "/" 1 s1) as [[r e2] s2]. cbn.
  destruct (Nat.eqb (length r) 0); reflexivity.
Qed.

(** X8.  When Stat fails: exactly when the attribute query reports an
    error and the one-page listing that follows has no result, and then
    always with the path error "stat" wrapping Not Found, also if the
    listing reported a fault of its own.  The error of the attribute query
    is never returned.  In every case the handle's attributes become what
    the attribute query returned, so a failed query drops attributes held
    before. *)
Theorem Stat_fails_only_with_not_found (b : blobFile) (w : World W) :
  (forall e,
     snd (fst (Stat B b w)) = StatFailed e <->
     e = PathError "stat" (name b) ErrNotExist /\
     snd (probeAttributes B (name b) w) <> None /\
     fst (probeListPage B (name b) (afterAttributes B (name b) w)) = []%list)
  /\ attrs (fst (fst (Stat B b w))) = fst (probeAttributes B (name b) w)
  /\ (snd (probeAttributes B (name b) w) = None ->
      Stat B b w
      = ((set_attrs b (fst (probeAttributes B (name b) w)), StatInfo None),
         afterAttributes B (name b) w)).
Proof.
  rewrite Stat_unfold.
  destruct (snd (probeAttributes B (name b) w)) as [ea|] eqn:Eq.
  - destruct (fst (probeListPage B (name b) (afterAttributes B (name b) w)))
      as [|o r] eqn:El; cbn.
    + split; [|split; [reflexivity | discriminate]].
      intros e. split.
      * intros H; inversion H. repeat split; discriminate.
      * intros (-> & _ & _). reflexivity.
    + split; [|split; [reflexivity | discriminate]].
      intros e. split; [discriminate|]. intros (_ & _ & H). discriminate.
  - cbn. split; [|split; reflexivity].
    intros e. split; [discriminate|]. intros (_ & H & _). contradiction.
Qed.

(** X9.  Stat records directories, and IsDir then answers from the record:
    when the attribute query reports an error and the listing has a
    result, Stat succeeds, marks the handle as a directory and returns the
    listing's error, if any, beside the file info.  On that handle IsDir
    makes no store call; it answers true when the name has no extension
    and false when it has one. *)
Theorem Stat_directory_then_IsDir (b : blobFile) (w : World W) :
  snd (probeAttributes B (name b) w) <> None ->
  fst (probeListPage B (name b) (afterAttributes B (name b) w)) <> []%list ->
  snd (fst (Stat B b w))
  = StatInfo (snd (probeListPage B (name b) (afterAttributes B (name b) w)))
  /\ isDir (fst (fst (Stat B b w))) = true
  /\ (forall w',
        IsDir B (fst (fst (Stat B b w))) w'
        = (String.eqb (GoStrings.Ext (name b)) "", w')).
Proof.
  intros Hq Hl. rewrite Stat_unfold.
  destruct (snd (probeAttributes B (name b) w)) as [ea|]; [|contradiction].
  destruct (fst (probeListPage B (name b) (afterAttributes B (name b) w)))
    as [|o r]; [contradiction|]. cbn [length Nat.eqb fst snd].
  split; [reflexivity|]. split; [reflexivity|].
  intros w'. unfold IsDir. cbn [name isDir set_isDir set_attrs].
  destruct (String.eqb (GoStrings.Ext (name b)) ""); reflexivity.
Qed.

(** X10.  Every error of Open is a path error of the operation "open" on
    the name given; what it wraps is Not Found or the error the exact-key
    query reported together with a positive answer. *)
Theorem Open_errors_are_path_errors
    (b : blobFS) (nm : string) (w : World W) (e : error) :
  fst (Open B b nm w) = OpenFailed e ->
  exists e', e = PathError "open" nm e' /\
             (e' = ErrNotExist \/
              probeExists B nm w = (true, Some e')).
Proof.
  destruct (String.eqb_spec nm ".") as [->|Hnm]; [discriminate|].
  rewrite (Open_unfold B b nm w Hnm).
  destruct (probeExists B nm w) as [fe e1] eqn:Ep. cbn [fst snd].
  destruct fe.
  - destruct e1 as [e1|]; cbn; intros H; inversion H.
    exists e1. split; [reflexivity | now right].
  - cbn.
    destruct (snd (probeList B nm w));
      [|destruct (0 <? Z.of_nat (length (fst (probeList B nm w))))];
      intros H; inversion H; exists ErrNotExist; split;
      (reflexivity || now left).
Qed.

End StatProperties.

(** ** Listing directories *)

Section ListingProperties.

Context {W : Type}.
Variable B : Bucket W.








(** A handle with an iterator lists without calling the store. *)
Lemma ReadDir_with_iterator (b : blobFile) (n : Z) (it : ListIterator)
    (w : World W) :
  iter b = Some it ->
  ReadDir B b n w
  = ((set_iter b (Some (fst (readDirLoop (fs b) n it []%list))),
      snd (readDirLoop (fs b) n it []%list)), w).
Proof.
  intros Hi. unfold ReadDir, bind. rewrite Hi. unfold ret at 1.
  destruct (readDirLoop (fs b) n it []%list) as [it' res]. reflexivity.
Qed.

Lemma ReadDirs_with_iterator (ns : list Z) (b : blobFile) (w : World W) :
  iter b <> None -> snd (ReadDirs B ns b w) = w.
Proof.
  revert b. induction ns as [|n ns IH]; intros b Hi; [reflexivity|].
  destruct (iter b) as [it|] eqn:Ei; [|contradiction].
  cbn [ReadDirs]. unfold bind.
  rewrite (ReadDir_with_iterator b n it w Ei).
  specialize (IH (set_iter b (Some (fst (readDirLoop (fs b) n it []%list))))
                 ltac:(discriminate)).
  destruct (ReadDirs B ns
              (set_iter b (Some (fst (readDirLoop (fs b) n it []%list)))) w)
    as [[b2 pages] w2].
  exact IH.
Qed.

Lemma listInvocations_app (cs cs' : list Call) :
  listInvocations (cs ++ cs')
  = (listInvocations cs ++ listInvocations cs')%list.
Proof.
  induction cs as [|c cs IH]; [reflexivity|].
  destruct c; cbn; rewrite IH; reflexivity.
Qed.

(** X14.  The listing is asked for once: the first ReadDir on a handle
    without iterator invokes [bucket.List] once, with the prefix made from
    the handle's name and the delimiter "/", and puts the iterator on the
    handle; after a ReadDir the handle always holds an iterator, and a run
    of ReadDir calls on a handle that holds one does not invoke
    [bucket.List].  So a run of ReadDir calls that starts without iterator
    invokes [bucket.List] exactly once.  ReadDir changes nothing on the
    handle but the iterator. *)
Theorem ReadDirs_list_once
    (n : Z) (ns : list Z) (b : blobFile) (w : World W) :
  (iter b = None ->
   listInvocations (calls (snd (ReadDirs B (n :: ns) b w)))
   = (listInvocations (calls w) ++ [(dirPrefix (name b), "/")])%list)
  /\ (iter b <> None ->
      listInvocations (calls (snd (ReadDirs B (n :: ns) b w)))
      = listInvocations (calls w))
  /\ iter (fst (fst (ReadDir B b n w))) <> None
  /\ fst (fst (ReadDir B b n w))
     = set_iter b (iter (fst (fst (ReadDir B b n w)))).
Proof.
  assert (HR : exists it' res w1,
             ReadDir B b n w = ((set_iter b (Some it'), res), w1)
             /\ (iter b = None ->
                 w1 = mkWorld (store w)
                        (calls w ++ [CList (dirPrefix (name b)) "/"])%list)).
  { unfold ReadDir, bind, List_. destruct (iter b) as [it|].
    - unfold ret at 1.
      destruct (readDirLoop (fs b) n it []%list) as [it' res].
      exists it', res, w. split; [reflexivity | discriminate].
    - destruct (readDirLoop (fs b) n
                  (bkList B (dirPrefix (name b)) "/" (store w)) []%list)
        as [it' res].
      exists it', res,
        (mkWorld (store w) (calls w ++ [CList (dirPrefix (name b)) "/"])%list).
      split; reflexivity. }
  destruct HR as (it' & res & w1 & HR & Hw1).
  split; [|split; [|rewrite HR; cbn; split; [discriminate | reflexivity]]].
  - intros Hi. cbn [ReadDirs]. unfold bind. rewrite HR, (Hw1 Hi).
    pose proof (ReadDirs_with_iterator ns (set_iter b (Some it'))
                  (mkWorld (store w)
                     (calls w ++ [CList (dirPrefix (name b)) "/"])%list)
                  ltac:(discriminate)) as Hw.
    destruct (ReadDirs B ns (set_iter b (Some it'))
                (mkWorld (store w)
                   (calls w ++ [CList (dirPrefix (name b)) "/"])%list))
      as [[b2 pages] w2].
    cbn in Hw |- *. subst w2. cbn. apply listInvocations_app.
  - intros Hi.
    now rewrite (ReadDirs_with_iterator (n :: ns) b w Hi).
Qed.


End ListingProperties.

(** ** Names, prefixes and keys *)

Lemma string_length_append (s t : string) :
  String.length (s ++ t) = (String.length s + String.length t)%nat.
Proof.
  induction s as [|c s IH]; cbn; [reflexivity | now rewrite IH].
Qed.

Lemma substring_whole (s : string) : substring 0 (String.length s) s = s.
Proof.
  induction s as [|c s IH]; cbn; [reflexivity | now rewrite IH].
Qed.

Lemma substring_append_head (s t : string) :
  substring 0 (String.length s) (s ++ t) = s.
Proof.
  induction s as [|c s IH]; cbn.
  - destruct t; reflexivity.
  - now rewrite IH.
Qed.

Lemma substring_append_tail (s t : string) (i m : nat) :
  substring (String.length s + i) m (s ++ t) = substring i m t.
Proof.
  induction s as [|c s IH]; cbn; [reflexivity | exact IH].
Qed.

Lemma substring_one_get (s : string) (j : nat) (c : ascii) :
  substring j 1 s = String c "" -> String.get j s = Some c.
Proof.
  revert j. induction s as [|a s IH]; intros j H.
  - destruct j; discriminate.
  - destruct j as [|j]; cbn in H |- *.
    + inversion H. reflexivity.
    + apply IH. exact H.
Qed.

(** A string with a suffix keeps it when something is put in front. *)
Lemma HasSuffix_append (s t suffix : string) :
  GoStrings.HasSuffix t suffix = true ->
  GoStrings.HasSuffix (s ++ t) suffix = true.
Proof.
  unfold GoStrings.HasSuffix. intros H.
  apply andb_true_iff in H. destruct H as [Hl He].
  apply Nat.leb_le in Hl.
  rewrite string_length_append.
  apply andb_true_iff. split; [apply Nat.leb_le; lia|].
  replace (String.length s + String.length t - String.length suffix)%nat
    with (String.length s + (String.length t - String.length suffix))%nat
    by lia.
  rewrite substring_append_tail. exact He.
Qed.

Lemma HasSuffix_slash (s : string) : GoStrings.HasSuffix (s ++ "/") "/" = true.
Proof.
  apply HasSuffix_append. reflexivity.
Qed.

(** A key that ends in '/' has no extension: [filepath.Ext] stops at the
    separator at once. *)
Lemma Ext_of_slash_key (k : string) :
  GoStrings.HasSuffix k "/" = true -> GoStrings.Ext k = "".
Proof.
  unfold GoStrings.HasSuffix, GoStrings.Ext. intros H.
  apply andb_true_iff in H. destruct H as [Hl He].
  apply Nat.leb_le in Hl. apply String.eqb_eq in He.
  destruct (String.length k) as [|j] eqn:El; [cbn in Hl; lia|].
  cbn [String.length Nat.sub] in He. rewrite Nat.sub_0_r in He.
  cbn [GoStrings.Ext_loop].
  rewrite (substring_one_get k j "/" He). reflexivity.
Qed.

Section NameProperties.

Context {W : Type}.
Variable B : Bucket W.

(** X16.  Directory entries know their kind: the handle ReadDir makes for
    a key that ends in the delimiter is marked as a directory, and since
    such a name has no extension, IsDir on it answers true and Mode
    answers the directory mode, both without a store call. *)
Theorem dirEntry_of_slash_key_IsDir
    (bfs : blobFS) (o : ListObject) (w : World W) :
  GoStrings.HasSuffix (Key o) "/" = true ->
  isDir (dirEntry bfs o) = true
  /\ IsDir B (dirEntry bfs o) w = (true, w)
  /\ Mode B (dirEntry bfs o) w = (ModeDir, w).
Proof.
  intros H.
  assert (HI : IsDir B (dirEntry bfs o) w = (true, w)).
  { unfold IsDir, dirEntry. cbn [name isDir set_isDir newBlobFile].
    rewrite (Ext_of_slash_key (Key o) H), H. reflexivity. }
  split; [unfold dirEntry; cbn; exact H|]. split; [exact HI|].
  unfold Mode, bind. rewrite HI. reflexivity.
Qed.

End NameProperties.

(** X17.  The prefix ReadDir lists under is empty or ends in the delimiter
    "/", whatever the name; and a name that starts with a dot loses that
    dot: for the name "." followed by [s], the prefix is [s], with a "/"
    added unless [s] is empty or ends in one already.  So the root "."
    lists under the empty prefix, and a directory ".x" under "x/". *)
Theorem dirPrefix_shape (nm s : string) :
  (dirPrefix nm = "" \/ GoStrings.HasSuffix (dirPrefix nm) "/" = true)
  /\ dirPrefix (String "." s)
     = if String.eqb s "" || GoStrings.HasSuffix s "/" then s else s ++ "/".
Proof.
  split.
  - unfold dirPrefix.
    destruct (String.eqb_spec (GoStrings.TrimPrefix nm ".") "") as [E|E].
    + cbn. now left.
    + cbn. destruct (GoStrings.HasSuffix (GoStrings.TrimPrefix nm ".") "/")
        eqn:Hs; cbn; right; [exact Hs | apply HasSuffix_slash].
  - assert (HT : GoStrings.TrimPrefix (String "." s) "." = s).
    { unfold GoStrings.TrimPrefix. cbn [String.prefix].
      destruct (ascii_dec "." "."); [|contradiction].
      cbn [String.length Nat.sub substring].
      rewrite Nat.sub_0_r. destruct s; [reflexivity|]. apply substring_whole. }
    unfold dirPrefix. rewrite HT.
    destruct (String.eqb s ""); cbn; [reflexivity|].
    destruct (GoStrings.HasSuffix s "/"); reflexivity.
Qed.

(** X18.  The root New computes ends in "/" and does not depend on one
    trailing slash of the prefix: a prefix that does not end in "/" and the
    same prefix followed by "/" give the same root, the version, "/", the
    prefix, "/".  New keeps the prefix as given on the file system value
    and reports no error. *)
Theorem New_root (v p : string) :
  GoStrings.HasSuffix (snd (fst (New v p))) "/" = true
  /\ snd (New v p) = None
  /\ prefix (fst (fst (New v p))) = p
  /\ (GoStrings.HasSuffix p "/" = false ->
      snd (fst (New v p)) = v ++ "/" ++ p ++ "/" /\
      snd (fst (New v (p ++ "/"))) = snd (fst (New v p))).
Proof.
  unfold New, subPath. cbn [fst snd prefix].
  split; [|split; [reflexivity | split; [reflexivity|]]].
  - apply HasSuffix_append. apply (HasSuffix_append "/").
    apply HasSuffix_slash.
  - intros Hp. unfold TrimSuffix. rewrite Hp, HasSuffix_slash.
    split; [reflexivity|].
    rewrite string_length_append. cbn [String.length].
    replace (String.length p + 1 - 1)%nat with (String.length p) by lia.
    now rewrite substring_append_head.
Qed.

(** *** Base names *)

Lemma list_ascii_of_string_append (s t : string) :
  list_ascii_of_string (s ++ t)
  = (list_ascii_of_string s ++ list_ascii_of_string t)%list.
Proof.
  induction s as [|c s IH]; cbn; [reflexivity | now rewrite IH].
Qed.

Lemma lastElem_before_sep (l r : list ascii) :
  forallb (fun c => negb (GoFilepath.isSep c)) l = true ->
  GoFilepath.lastElem (l ++ "/"%char :: r) = l.
Proof.
  induction l as [|c l IH]; intros H; cbn in *; [reflexivity|].
  apply andb_true_iff in H. destruct H as [Hc Hl].
  destruct (GoFilepath.isSep c); [discriminate|]. now rewrite IH.
Qed.

Lemma lastElem_all (l : list ascii) :
  forallb (fun c => negb (GoFilepath.isSep c)) l = true ->
  GoFilepath.lastElem l = l.
Proof.
  induction l as [|c l IH]; intros H; cbn in *; [reflexivity|].
  apply andb_true_iff in H. destruct H as [Hc Hl].
  destruct (GoFilepath.isSep c); [discriminate|]. now rewrite IH.
Qed.

Lemma dropSeps_at_name (l : list ascii) :
  l <> []%list ->
  forallb (fun c => negb (GoFilepath.isSep c)) l = true ->
  forall r, GoFilepath.dropSeps (l ++ r) = (l ++ r)%list.
Proof.
  intros Hne H r. destruct l as [|c l]; [contradiction|]. cbn in *.
  apply andb_true_iff in H. destruct H as [Hc _].
  destruct (GoFilepath.isSep c); [discriminate | reflexivity].
Qed.

Lemma forallb_rev {A : Type} (f : A -> bool) (l : list A) :
  forallb f (rev l) = forallb f l.
Proof.
  induction l as [|x l IH]; [reflexivity|]. cbn.
  rewrite forallb_app, IH. cbn. rewrite andb_true_r. apply andb_comm.
Qed.

(** The base name of a path whose characters, from the end, are those of
    [x] reversed, then a separator or nothing. *)
Lemma Base_of_rev (path x : string) (r : list ascii) :
  x <> "" ->
  slashFree x = true ->
  (rev (list_ascii_of_string path)
   = (rev (list_ascii_of_string x) ++ "/"%char :: r)%list
   \/ rev (list_ascii_of_string path) = rev (list_ascii_of_string x)
   \/ rev (list_ascii_of_string path)
      = ("/"%char :: rev (list_ascii_of_string x) ++ "/"%char :: r)%list
   \/ rev (list_ascii_of_string path)
      = ("/"%char :: rev (list_ascii_of_string x))%list) ->
  GoFilepath.Base path = x.
Proof.
  intros Hx Hs Hp. unfold slashFree in Hs.
  assert (Hne : rev (list_ascii_of_string x) <> []%list).
  { destruct x as [|c x]; [contradiction|]. cbn.
    intros E. apply app_eq_nil in E. destruct E; discriminate. }
  assert (Hr : forallb (fun c => negb (GoFilepath.isSep c))
                       (rev (list_ascii_of_string x)) = true)
    by (now rewrite forallb_rev).
  assert (Hpath : String.eqb path "" = false).
  { apply String.eqb_neq. intros ->. cbn in Hp.
    destruct Hp as [E|[E|[E|E]]];
      try discriminate; symmetry in E;
      try (apply app_eq_nil in E; destruct E as [E _]); contradiction. }
  assert (HL : GoFilepath.lastElem
                 (GoFilepath.dropSeps (rev (list_ascii_of_string path)))
               = rev (list_ascii_of_string x)).
  { destruct Hp as [E|[E|[E|E]]]; rewrite E.
    - rewrite (dropSeps_at_name _ Hne Hr). now apply lastElem_before_sep.
    - rewrite <- (app_nil_r (rev (list_ascii_of_string x))).
      rewrite (dropSeps_at_name _ Hne Hr), app_nil_r. now apply lastElem_all.
    - cbn [GoFilepath.dropSeps GoFilepath.isSep]. cbn [Ascii.eqb Bool.eqb].
      cbn.
      rewrite (dropSeps_at_name _ Hne Hr). now apply lastElem_before_sep.
    - cbn.
      rewrite <- (app_nil_r (rev (list_ascii_of_string x))).
      rewrite (dropSeps_at_name _ Hne Hr), app_nil_r. now apply lastElem_all. }
  unfold GoFilepath.Base. rewrite Hpath, HL.
  destruct (rev (list_ascii_of_string x)) as [|c l] eqn:E; [contradiction|].
  rewrite <- E, rev_involutive. apply string_of_list_ascii_of_string.
Qed.

(** X19.  Name is the last element of the handle's name: for a non-empty
    [x] without '/', the handles named [x], [x/], [d/x] and [d/x/] all have
    the Name [x], so a file entry "dir/a.txt" is called "a.txt" and a
    directory entry "dir/sub/" is called "sub".  The root handle, whose
    name is empty, is called ".". *)
Theorem Name_is_last_element (b : blobFile) (d x : string) :
  (name b = "" -> Name b = ".")
  /\ (x <> "" -> slashFree x = true ->
      name b = x \/ name b = x ++ "/" \/
      name b = d ++ "/" ++ x \/ name b = d ++ "/" ++ x ++ "/" ->
      Name b = x).
Proof.
  unfold Name. split; [intros ->; reflexivity|].
  intros Hx Hs Hn.
  apply (Base_of_rev (name b) x (rev (list_ascii_of_string d)) Hx Hs).
  destruct Hn as [E|[E|[E|E]]]; rewrite E;
    rewrite ?list_ascii_of_string_append; cbn [list_ascii_of_string];
    rewrite ?rev_app_distr; cbn [rev app];
    rewrite ?rev_app_distr; cbn [rev app]; rewrite <- ?app_assoc;
    cbn [app].
  - right. left. reflexivity.
  - right. right. right. reflexivity.
  - left. reflexivity.
  - right. right. left. reflexivity.
Qed.

(** ** Where Read panics *)

Section ReadPanics.

Context {W : Type}.
Variable B : Bucket W.

Lemma Read_outside (b : blobFile) (c dst : list Byte.byte) (w : World W) :
  contents b = Some c ->
  offset b < 0 \/ Z.of_nat (length c) < offset b ->
  Read B b (Some dst) w = ((b, ReadPanic), w).
Proof.
  intros Hc Ho. unfold Read, bind. rewrite Hc.
  unfold ret at 1. cbv beta iota. rewrite Hc.
  unfold slice_from, len.
  destruct (Z.ltb_spec (offset b) 0); [reflexivity|].
  destruct (Z.ltb_spec (Z.of_nat (length c)) (offset b)); [reflexivity | lia].
Qed.

Lemma Read_inside (b : blobFile) (c dst : list Byte.byte) (w : World W) :
  contents b = Some c ->
  0 <= offset b <= Z.of_nat (length c) ->
  snd (fst (Read B b (Some dst) w)) <> ReadPanic.
Proof.
  intros Hc Ho. unfold Read, bind. rewrite Hc.
  unfold ret at 1. cbv beta iota. rewrite Hc.
  unfold slice_from, len.
  destruct (Z.ltb_spec (offset b) 0); [lia|].
  destruct (Z.ltb_spec (Z.of_nat (length c)) (offset b)); [lia|].
  cbn [orb]. unfold copy.
  match goal with |- context [if ?t then _ else _] => destruct t end;
    cbn; discriminate.
Qed.

(** X20.  Read has no guard before it slices the content: on a handle that
    holds its content, a Read into a non-nil buffer panics exactly when the
    offset is negative or beyond the end of the content, as a Seek may have
    left it; the handle and the store are then as before the call.  At
    every offset from 0 to the length it returns. *)
Theorem Read_panics_outside_content
    (b : blobFile) (c dst : list Byte.byte) (w : World W) :
  contents b = Some c ->
  (snd (fst (Read B b (Some dst) w)) = ReadPanic <->
   offset b < 0 \/ Z.of_nat (length c) < offset b)
  /\ (snd (fst (Read B b (Some dst) w)) = ReadPanic ->
      Read B b (Some dst) w = ((b, ReadPanic), w)).
Proof.
  intros Hc.
  assert (Hiff : snd (fst (Read B b (Some dst) w)) = ReadPanic <->
                 offset b < 0 \/ Z.of_nat (length c) < offset b).
  { split.
    - intros HP.
      destruct (Z.lt_ge_cases (offset b) 0) as [H0|H0]; [now left|].
      destruct (Z.lt_ge_cases (Z.of_nat (length c)) (offset b)) as [H1|H1];
        [now right|].
      exfalso. apply (Read_inside b c dst w Hc); [lia | exact HP].
    - intros Ho. now rewrite (Read_outside b c dst w Hc Ho). }
  split; [exact Hiff|].
  intros HP. apply (Read_outside b c dst w Hc). now apply Hiff.
Qed.

End ReadPanics.

(** ** The properties above on the test bucket *)

Lemma hello_fits : Z.of_nat (length hello) <= maxInt64.
Proof. unfold maxInt64; simpl; lia. Defined.

(** Reads_deliver_content from offset 1 of "foo" through three buffers of
    two bytes. *)
Lemma Reads_deliver_content_witness :
  contents (fooAt 1) = Some hello /\
  offset_in_bounds (fooAt 1) /\
  concat (List.map delivered
            (snd (fst (Reads fooBarBaz
                         [Some [Byte.x00; Byte.x00]; Some [Byte.x00; Byte.x00];
                          Some [Byte.x00; Byte.x00]]%list
                         (fooAt 1) world0))))
  = [Byte.x65; Byte.x6c; Byte.x6c; Byte.x6f]%list.
Proof.
  assert (Hb : offset_in_bounds (fooAt 1))
    by (unfold offset_in_bounds, maxInt64; simpl; lia).
  split; [reflexivity|]. split; [exact Hb|].
  exact (proj1 (Reads_deliver_content fooBarBaz _ (fooAt 1) hello world0
                  eq_refl Hb)).
Defined.

(** Reads_fetch_once on a fresh handle of "foo". *)
Lemma Reads_fetch_once_witness :
  contents (newBlobFile testFS "foo") = None /\
  fst (bkReadAll fooBarBaz "foo" tt) = (Some hello, None) /\
  snd (Reads fooBarBaz
         [Some [Byte.x00; Byte.x00]; Some [Byte.x00; Byte.x00];
          Some [Byte.x00; Byte.x00]; Some [Byte.x00; Byte.x00]]%list
         (newBlobFile testFS "foo") world0)
  = mkWorld tt [CReadAll "foo"]%list.
Proof.
  assert (Ho : 0 <= offset (newBlobFile testFS "foo")
               <= Z.of_nat (length hello)) by (simpl; lia).
  split; [reflexivity|]. split; [reflexivity|].
  exact (proj2 (proj2 (Reads_fetch_once fooBarBaz [Byte.x00; Byte.x00]%list _
                         (newBlobFile testFS "foo") hello world0
                         eq_refl eq_refl Ho hello_fits))).
Defined.

(** Read_fetch_error on a handle of "nope", a key the test bucket has not,
    where the error comes without data, and on a handle of "foo" in the
    bucket whose fetch breaks off, where it comes with two bytes. *)
Lemma Read_fetch_error_witness :
  (contents (newBlobFile testFS "nope") = None /\
   fst (bkReadAll fooBarBaz "nope" tt) = (None, Some (StoreErr "not found")) /\
   Read fooBarBaz (newBlobFile testFS "nope") (Some [Byte.x00]%list) world0
   = ((newBlobFile testFS "nope",
       ReadRet 0 (Some [Byte.x00]%list) (Some (StoreErr "not found"))),
      mkWorld tt [CReadAll "nope"]%list) /\
   calls (snd (Read fooBarBaz
                 (fst (fst (Read fooBarBaz (newBlobFile testFS "nope")
                              (Some [Byte.x00]%list) world0)))
                 (Some [Byte.x00]%list)
                 (mkWorld tt [CReadAll "nope"]%list)))
   = [CReadAll "nope"; CReadAll "nope"]%list)
  /\
  (fst (bkReadAll truncatingBucket "foo" tt)
   = (Some [Byte.x68; Byte.x65]%list, Some (StoreErr "unexpected EOF")) /\
   exists n buf',
     Read truncatingBucket
          (fst (fst (Read truncatingBucket (newBlobFile testFS "foo")
                       (Some [Byte.x00; Byte.x00; Byte.x00]%list) world0)))
          (Some [Byte.x00; Byte.x00; Byte.x00]%list)
          (mkWorld tt [CReadAll "foo"]%list)
     = ((set_offset (set_contents (newBlobFile testFS "foo")
                       (Some [Byte.x68; Byte.x65]%list)) (0 + n),
         ReadRet n (Some buf') (if n =? 0 then Some EOF else None)),
        mkWorld tt [CReadAll "foo"]%list)
     /\ n = 2
     /\ firstn (Z.to_nat n) buf' = [Byte.x68; Byte.x65]%list).
Proof.
  assert (Ho : 0 <= offset (newBlobFile testFS "foo")
               <= Z.of_nat (length [Byte.x68; Byte.x65]%list))
    by (simpl; lia).
  assert (Hl : Z.of_nat (length [Byte.x68; Byte.x65]%list) <= maxInt64)
    by (unfold maxInt64; simpl; lia).
  split.
  - split; [reflexivity|]. split; [reflexivity|]. split.
    + exact (proj1 (Read_fetch_error fooBarBaz (newBlobFile testFS "nope")
                      None (StoreErr "not found") [Byte.x00]%list world0
                      eq_refl eq_refl)).
    + exact (proj2 (proj1 (proj2 (Read_fetch_error fooBarBaz
                                    (newBlobFile testFS "nope") None
                                    (StoreErr "not found") [Byte.x00]%list
                                    world0 eq_refl eq_refl)) eq_refl)
                   [Byte.x00]%list (mkWorld tt [CReadAll "nope"]%list)).
  - split; [reflexivity|].
    exact (proj1 (proj2 (proj2 (Read_fetch_error truncatingBucket
                                  (newBlobFile testFS "foo")
                                  (Some [Byte.x68; Byte.x65]%list)
                                  (StoreErr "unexpected EOF")
                                  [Byte.x00; Byte.x00; Byte.x00]%list world0
                                  eq_refl eq_refl)))
                 [Byte.x68; Byte.x65]%list eq_refl Ho Hl
                 [Byte.x00; Byte.x00; Byte.x00]%list
                 (mkWorld tt [CReadAll "foo"]%list)).
Defined.

(** Seek_start_then_Read: from offset 4 of "foo" back to 2. *)
Lemma Seek_start_then_Read_witness :
  contents (fooAt 4) = Some hello /\
  0 <= 2 <= Z.of_nat (length hello) /\
  exists n buf',
    Read fooBarBaz (fst (fst (Seek fooBarBaz (fooAt 4) 2 SeekStart world0)))
         (Some [Byte.x00; Byte.x00]%list)
         (snd (Seek fooBarBaz (fooAt 4) 2 SeekStart world0))
    = ((set_offset (fooAt 4) (2 + n),
        ReadRet n (Some buf') (if n =? 0 then Some EOF else None)), world0)
    /\ n = 2
    /\ firstn (Z.to_nat n) buf' = [Byte.x6c; Byte.x6c]%list.
Proof.
  assert (Hv : 0 <= 2 <= Z.of_nat (length hello)) by (simpl; lia).
  split; [reflexivity|]. split; [exact Hv|].
  exact (Seek_start_then_Read fooBarBaz (fooAt 4) hello
           [Byte.x00; Byte.x00]%list 2 world0 eq_refl Hv hello_fits).
Defined.

(** Seek_current_adds_up at offset 1 of "foo". *)
Lemma Seek_current_adds_up_witness :
  int64_range (offset (fooAt 1)) /\
  Seek fooBarBaz (fooAt 1) 0 SeekCurrent world0
  = ((fooAt 1, (1, None)), world0).
Proof.
  assert (Hr : int64_range (offset (fooAt 1)))
    by (unfold int64_range, maxInt64; simpl; lia).
  split; [exact Hr|].
  exact (proj2 (Seek_current_adds_up fooBarBaz (fooAt 1) 0 0 world0) Hr).
Defined.

(** Seek_frame on the handle of "foo" with its attributes held. *)
Lemma Seek_frame_witness :
  SeekStart <> SeekEnd /\
  attrs (set_attrs (fooAt 1) (Some (mkAttributes 5 3)))
  = Some (mkAttributes 5 3) /\
  snd (Seek fooBarBaz (set_attrs (fooAt 1) (Some (mkAttributes 5 3)))
            9 SeekStart world0) = world0 /\
  Seek fooBarBaz (set_attrs (fooAt 1) (Some (mkAttributes 5 3)))
       0 SeekEnd world0
  = ((set_offset (set_attrs (fooAt 1) (Some (mkAttributes 5 3))) 5,
      (5, None)), world0).
Proof.
  assert (Hw : SeekStart <> SeekEnd) by discriminate.
  split; [exact Hw|]. split; [reflexivity|]. split.
  - exact (proj2 (proj1 (proj2 (proj2 (proj2 (proj2
             (Seek_frame fooBarBaz
                (set_attrs (fooAt 1) (Some (mkAttributes 5 3)))
                9 SeekStart world0))))) Hw)).
  - exact (proj2 (proj2 (proj2 (proj2 (proj2
             (Seek_frame fooBarBaz
                (set_attrs (fooAt 1) (Some (mkAttributes 5 3)))
                0 SeekEnd world0)))))
             (mkAttributes 5 3) eq_refl).
Defined.

(** Size_fetches_lazily on a fresh handle of "foo". *)
Lemma Size_fetches_lazily_witness :
  attrs (newBlobFile testFS "foo") = None /\
  fst (probeExists fooBarBaz "foo" world0) = true /\
  Size fooBarBaz (newBlobFile testFS "foo") world0
  = ((set_attrs (newBlobFile testFS "foo") (Some (mkAttributes 5 3)), 5),
     mkWorld tt [CExists "foo"; CAttributes "foo"]%list).
Proof.
  split; [reflexivity|]. split; [reflexivity|].
  exact (proj1 (Size_fetches_lazily fooBarBaz (newBlobFile testFS "foo")
                  world0 eq_refl eq_refl)).
Defined.

(** Stat_fails_only_with_not_found on a handle of "qux", which is neither
    a key nor a prefix of the test bucket. *)
Lemma Stat_fails_only_with_not_found_witness :
  snd (probeAttributes fooBarBaz "qux" world0) <> None /\
  fst (probeListPage fooBarBaz "qux" (afterAttributes fooBarBaz "qux" world0))
  = []%list /\
  snd (fst (Stat fooBarBaz (newBlobFile testFS "qux") world0))
  = StatFailed (PathError "stat" "qux" ErrNotExist).
Proof.
  assert (Hq : snd (probeAttributes fooBarBaz
                      (name (newBlobFile testFS "qux")) world0) <> None)
    by discriminate.
  split; [exact Hq|]. split; [reflexivity|].
  exact (proj2 (proj1 (Stat_fails_only_with_not_found fooBarBaz
                         (newBlobFile testFS "qux") world0) _)
               (conj eq_refl (conj Hq eq_refl))).
Defined.

(** Stat_directory_then_IsDir on a handle of the directory "baz". *)
Lemma Stat_directory_then_IsDir_witness :
  snd (probeAttributes fooBarBaz "baz" world0) <> None /\
  fst (probeListPage fooBarBaz "baz" (afterAttributes fooBarBaz "baz" world0))
  <> []%list /\
  IsDir fooBarBaz (fst (fst (Stat fooBarBaz (newBlobFile testFS "baz") world0)))
        world0
  = (true, world0).
Proof.
  assert (Hq : snd (probeAttributes fooBarBaz
                      (name (newBlobFile testFS "baz")) world0) <> None)
    by discriminate.
  assert (Hl : fst (probeListPage fooBarBaz (name (newBlobFile testFS "baz"))
                      (afterAttributes fooBarBaz
                         (name (newBlobFile testFS "baz")) world0))
               <> []%list) by discriminate.
  split; [exact Hq|]. split; [exact Hl|].
  exact (proj2 (proj2 (Stat_directory_then_IsDir fooBarBaz
                         (newBlobFile testFS "baz") world0 Hq Hl)) world0).
Defined.

(** Open_errors_are_path_errors at "qux". *)
Lemma Open_errors_are_path_errors_witness :
  fst (Open fooBarBaz testFS "qux" world0)
  = OpenFailed (PathError "open" "qux" ErrNotExist) /\
  exists e',
    PathError "open" "qux" ErrNotExist = PathError "open" "qux" e' /\
    (e' = ErrNotExist \/ probeExists fooBarBaz "qux" world0 = (true, Some e')).
Proof.
  split; [reflexivity|].
  exact (Open_errors_are_path_errors fooBarBaz testFS "qux" world0 _ eq_refl).
Defined.




(** ReadDirs_list_once: two pages from a fresh root handle, and two pages
    from a root handle that holds its iterator. *)
Lemma ReadDirs_list_once_witness :
  (iter (newBlobFile testFS "") = None /\
   listInvocations
     (calls (snd (ReadDirs fooBarBaz [2; 2]%list (newBlobFile testFS "")
                    world0)))
   = [("", "/")]%list)
  /\
  (iter rootListing <> None /\
   listInvocations
     (calls (snd (ReadDirs fooBarBaz [2; 2]%list rootListing world0)))
   = []%list).
Proof.
  assert (Hi : iter rootListing <> None) by discriminate.
  split.
  - split; [reflexivity|].
    exact (proj1 (ReadDirs_list_once fooBarBaz 2 [2]%list
                    (newBlobFile testFS "") world0) eq_refl).
  - split; [exact Hi|].
    exact (proj1 (proj2 (ReadDirs_list_once fooBarBaz 2 [2]%list
                           rootListing world0)) Hi).
Defined.


(** dirEntry_of_slash_key_IsDir at the entry "baz/". *)
Lemma dirEntry_of_slash_key_IsDir_witness :
  GoStrings.HasSuffix "baz/" "/" = true /\
  IsDir fooBarBaz (dirEntry testFS (mkListObject "baz/" true)) world0
  = (true, world0).
Proof.
  split; [reflexivity|].
  exact (proj1 (proj2 (dirEntry_of_slash_key_IsDir fooBarBaz testFS
                         (mkListObject "baz/" true) world0 eq_refl))).
Defined.

(** New_root for the version "v1" and the prefix "assets". *)
Lemma New_root_witness :
  GoStrings.HasSuffix "assets" "/" = false /\
  snd (fst (New "v1" "assets")) = "v1/assets/" /\
  snd (fst (New "v1" "assets/")) = snd (fst (New "v1" "assets")).
Proof.
  split; [reflexivity|].
  exact (proj2 (proj2 (proj2 (New_root "v1" "assets"))) eq_refl).
Defined.

(** Name_is_last_element at the directory entry "dir/sub/". *)
Lemma Name_is_last_element_witness :
  "sub" <> "" /\
  slashFree "sub" = true /\
  Name (dirEntry testFS (mkListObject "dir/sub/" true)) = "sub".
Proof.
  assert (Hx : "sub" <> "") by discriminate.
  split; [exact Hx|]. split; [reflexivity|].
  exact (proj2 (Name_is_last_element
                  (dirEntry testFS (mkListObject "dir/sub/" true)) "dir" "sub")
               Hx eq_refl (or_intror (or_intror (or_intror eq_refl)))).
Defined.

(** Read_panics_outside_content at offset 6 of "foo". *)
Lemma Read_panics_outside_content_witness :
  contents (fooAt 6) = Some hello /\
  (offset (fooAt 6) < 0 \/ Z.of_nat (length hello) < offset (fooAt 6)) /\
  snd (fst (Read fooBarBaz (fooAt 6) (Some [Byte.x00]%list) world0))
  = ReadPanic.
Proof.
  assert (Ho : offset (fooAt 6) < 0 \/
               Z.of_nat (length hello) < offset (fooAt 6))
    by (right; simpl; lia).
  split; [reflexivity|]. split; [exact Ho|].
  exact (proj2 (proj1 (Read_panics_outside_content fooBarBaz (fooAt 6) hello
                         [Byte.x00]%list world0 eq_refl)) Ho).
Defined.
